(** * Product collector (Product-finder-count.py): model and properties

    A shallow embedding of the Streamlit script [Product-finder-count.py]:
    the page fetcher [fetch_products], the per-URL pagination loop
    [collect_all_products], the batch processor [process_batch] and the
    top-level script body ([make_batches], [run_batches], [app]).

    The script talks to three outside parties, which the model makes explicit:
    - the wall clock: [time.time()] is an oracle [clock] answering the n-th
      reading of the run, in seconds; a reading is a rational number, as
      every finite float is, and the difference of two readings is taken
      exactly; nothing is assumed about the readings, not even that they
      increase;
    - the network: [requests.get] followed by [raise_for_status] and [json]
      is an oracle [http_get] from the requested URL to an [outcome]; a
      storefront answers the same URL the same way during one run;
    - the Streamlit page: every [st.*] call and every request is appended to
      the [trace] of the [World], oldest first.

    [while True] is a loop with fuel; [None] means the fuel ran out. *)

From stdpp Require Import gmap strings list fin_maps pretty.
From Stdlib Require Import QArith Lqa.

Close Scope Q_scope.
Open Scope string_scope.
Open Scope list_scope.

(** ** Data model *)

(** A JSON value as [response.json()] builds it. Floating-point numbers are
    left out: the script reads no field of a product. *)
#[warnings="-register-all"]
Inductive value : Type :=
  | VNull
  | VBool (b : bool)
  | VInt (n : Z)
  | VStr (s : string)
  | VList (items : list value)
  | VDict (fields : list (string * value)).

(** A product record is a Python dict from field names to values. *)
Abbreviation record := (gmap string value).

(** What one [requests.get(url, timeout=...)] leads to inside the [try] of
    [fetch_products]. [Success body] is an answer that passes
    [raise_for_status] and whose JSON body is an object; [body] is its entry
    under the key "products", a list of records, when it has one (the
    upstream contract; other shapes of the body are not modelled).
    [Timeout] is a [requests.exceptions.Timeout]. [Failure e] is any other
    [requests.RequestException] raised by [get], [raise_for_status] or
    [json]: a connection error, an HTTP error status, a body that is not
    JSON. *)
Inductive outcome : Type :=
  | Success (body : option (list record))
  | Timeout
  | Failure (e : string).

(** The texts the script formats, with the values it puts in them. *)
Inductive message : Type :=
  | PageTimedOut (page : nat) (base_url : string)
  | RequestFailed (base_url : string) (e : string)
  | TookTooLong (base_url : string)
  | ProcessingUrl (i total_urls batch_num : nat) (base_url : string)
  | ProcessingCount (i total_urls batch_num : nat) (elapsed_time : Q)
  | CollectingBatch (batch_num : nat)
  | BatchCompleted (batch_num count : nat)
  | MissingLinkColumn.

(** The files offered for download. *)
Inductive file_name : Type :=
  | BatchCsv (batch_num : nat)
  | AllCsv.

(** Everything the script does that is visible from outside. A progress bar
    or placeholder is named by the position of the event that created it. *)
Inductive event : Type :=
  | HttpGet (url : string) (timeout : Z)
  | StTitle
  | StFileUploader
  | StButton
  | StWarning (m : message)
  | StError (m : message)
  | StWrite (m : message)
  | StSuccess (m : message)
  | SpinnerEnter (m : message)
  | SpinnerExit
  | StProgress
  | StEmpty
  | BarProgress (progress_bar : nat) (i total_urls : nat)
  | TextWrite (progress_text : nat) (m : message)
  | StDataframe (rows : list record)
  | StDownloadButton (file : file_name) (rows : list record).

Record World : Type := mkWorld {
  reads : nat;
  trace : list event
}.

Record Env : Type := mkEnv {
  clock : nat -> Q;
  http_get : string -> outcome
}.

Definition emit (e : event) (w : World) : World :=
  mkWorld (reads w) (trace w ++ [e]).

(** [time.time()] *)
Definition time_time (env : Env) (w : World) : Q * World :=
  (clock env (reads w), mkWorld (S (reads w)) (trace w)).

(** ** [fetch_products] *)

Definition products_url (base_url : string) (page : nat) : string :=
  base_url +:+ "/products.json?page=" +:+ pretty page.

Definition fetch_products (env : Env) (base_url : string) (page : nat)
    (timeout : Z) (w : World) : list record * World :=
  let url := products_url base_url page in
  let w := emit (HttpGet url timeout) w in
  match http_get env url with
  | Success body => (default [] body, w)
  | Timeout => ([], emit (StWarning (PageTimedOut page base_url)) w)
  | Failure e => ([], emit (StError (RequestFailed base_url e)) w)
  end.

(** ** [collect_all_products] *)

(** [product['source_url'] = base_url] *)
Definition stamp (base_url : string) (product : record) : record :=
  <["source_url" := VStr base_url]> product.

(** The [while True] loop, entered with the list [products] gathered so far
    and the next [page]. *)
Fixpoint collect_loop (env : Env) (fuel : nat) (base_url : string)
    (max_total_time start_time : Q) (products : list record) (page : nat)
    (w : World) : option (list record * World) :=
  match fuel with
  | O => None
  | S fuel =>
      let '(now, w) := time_time env w in
      if Qlt_le_dec max_total_time (now - start_time) then
        Some ([], emit (StWarning (TookTooLong base_url)) w)
      else
        let '(page_products, w) := fetch_products env base_url page 10 w in
        match page_products with
        | [] => Some (stamp base_url <$> products, w)
        | _ :: _ =>
            collect_loop env fuel base_url max_total_time start_time
              (products ++ page_products) (S page) w
        end
  end.

Definition collect_all_products (env : Env) (fuel : nat) (base_url : string)
    (max_total_time : Q) (w : World) : option (list record * World) :=
  let '(start_time, w) := time_time env w in
  collect_loop env fuel base_url max_total_time start_time [] 1 w.

(** ** [process_batch] *)

Fixpoint process_batch_loop (env : Env) (fuel : nat)
    (batch_num progress_bar progress_text total_urls : nat)
    (i : nat) (urls : list string) (batch_data : list record) (w : World)
    : option (list record * World) :=
  match urls with
  | [] => Some (batch_data, w)
  | base_url :: urls =>
      let '(start_time, w) := time_time env w in
      let w := emit (StWrite (ProcessingUrl i total_urls batch_num base_url)) w in
      match collect_all_products env fuel base_url 35 w with
      | None => None
      | Some (products, w) =>
          let batch_data :=
            match products with
            | [] => batch_data
            | _ :: _ => batch_data ++ products
            end in
          let '(end_time, w) := time_time env w in
          let elapsed_time := (end_time - start_time)%Q in
          let w := emit (BarProgress progress_bar i total_urls) w in
          let w := emit (TextWrite progress_text
                           (ProcessingCount i total_urls batch_num elapsed_time)) w in
          process_batch_loop env fuel batch_num progress_bar progress_text
            total_urls (S i) urls batch_data w
      end
  end.

Definition process_batch (env : Env) (fuel : nat) (batch : list string)
    (batch_num progress_bar progress_text : nat) (w : World)
    : option (list record * World) :=
  process_batch_loop env fuel batch_num progress_bar progress_text
    (length batch) 1 batch [] w.

(** ** The script body *)

Definition num_batches : nat := 4.

(** [l[a:b]] for indices that are not negative. *)
Definition slice {A : Type} (a b : nat) (l : list A) : list A :=
  take (b - a) (drop a l).

Definition make_batches (links : list string) : list (list string) :=
  let batch_size := (length links / num_batches)%nat in
  (fun i => slice (i * batch_size) ((i + 1) * batch_size) links)
    <$> seq 0 num_batches.

(** [st.progress(0)] and [st.empty()] *)
Definition st_progress (w : World) : nat * World :=
  (length (trace w), emit StProgress w).

Definition st_empty (w : World) : nat * World :=
  (length (trace w), emit StEmpty w).

(** What the script shows once a batch has been processed. *)
Definition show_batch (batch_num : nat) (batch_data : list record)
    (w : World) : World :=
  match batch_data with
  | [] => w
  | _ :: _ =>
      let w := emit (StSuccess (BatchCompleted batch_num (length batch_data))) w in
      let w := emit (StDataframe batch_data) w in
      emit (StDownloadButton (BatchCsv batch_num) batch_data) w
  end.

(** [for batch_num, batch in enumerate(batches, 1)] *)
Fixpoint run_batches (env : Env) (fuel : nat) (batch_num : nat)
    (batches : list (list string)) (all_results : list record) (w : World)
    : option (list record * World) :=
  match batches with
  | [] => Some (all_results, w)
  | batch :: batches =>
      let w := emit (SpinnerEnter (CollectingBatch batch_num)) w in
      let '(progress_bar, w) := st_progress w in
      let '(progress_text, w) := st_empty w in
      match process_batch env fuel batch batch_num progress_bar progress_text w with
      | None => None
      | Some (batch_data, w) =>
          let all_results := all_results ++ batch_data in
          let w := show_batch batch_num batch_data w in
          let w := emit SpinnerExit w in
          run_batches env fuel (S batch_num) batches all_results w
      end
  end.

(** The final combined download. *)
Definition show_all (all_results : list record) (w : World) : World :=
  match all_results with
  | [] => w
  | _ :: _ => emit (StDownloadButton AllCsv all_results) w
  end.

(** The body under [if st.button(...)]. *)
Definition collect_from_all_batches (env : Env) (fuel : nat)
    (batches : list (list string)) (w : World)
    : option (list record * World) :=
  match run_batches env fuel 1 batches [] w with
  | None => None
  | Some (all_results, w) => Some (all_results, show_all all_results w)
  end.

(** One run of the script. [uploaded_file] is the table [pd.read_csv] made
    of the upload, column name to cells, when a file was uploaded; [button]
    is what [st.button] answers in this run. *)
Definition app (env : Env) (fuel : nat)
    (uploaded_file : option (gmap string (list string))) (button : bool)
    (w : World) : option World :=
  let w := emit StTitle w in
  let w := emit StFileUploader w in
  match uploaded_file with
  | None => Some w
  | Some csv_data =>
      match csv_data !! "link" with
      | None => Some (emit (StError MissingLinkColumn) w)
      | Some links =>
          let batches := make_batches links in
          let w := emit StButton w in
          if button then
            snd <$> collect_from_all_batches env fuel batches w
          else Some w
      end
  end.

(** ** Observations used in the statements *)

(** The records the caller of [fetch_products] gets for a page. *)
Definition served (env : Env) (base_url : string) (page : nat) : list record :=
  match http_get env (products_url base_url page) with
  | Success body => default [] body
  | Timeout | Failure _ => []
  end.

(** The events one call of [fetch_products] adds to the trace. *)
Definition fetch_events (env : Env) (base_url : string) (page : nat)
    (timeout : Z) : list event :=
  HttpGet (products_url base_url page) timeout ::
  match http_get env (products_url base_url page) with
  | Success _ => []
  | Timeout => [StWarning (PageTimedOut page base_url)]
  | Failure e => [StError (RequestFailed base_url e)]
  end.

(** The URLs requested in a trace, in the order of the requests. *)
Definition requests (t : list event) : list string :=
  omap (fun e => match e with HttpGet url _ => Some url | _ => None end) t.

(** The clock reading of the [j]-th budget check of a [collect_all_products]
    entered in world [w], less the reading taken on entry. *)
Definition elapsed_at (env : Env) (w : World) (j : nat) : Q :=
  (clock env (reads w + j) - clock env (reads w))%Q.

(** The world in which [process_batch] calls the collector for the [i]-th
    URL, having been in world [w] at the top of the loop body. *)
Definition url_entered (env : Env) (i total_urls batch_num : nat)
    (base_url : string) (w : World) : World :=
  emit (StWrite (ProcessingUrl i total_urls batch_num base_url))
    (snd (time_time env w)).

(** The world at the end of the loop body, the collector having returned in
    world [w1]. *)
Definition url_left (env : Env) (progress_bar progress_text : nat)
    (i total_urls batch_num : nat) (w w1 : World) : World :=
  let elapsed_time := (fst (time_time env w1) - fst (time_time env w))%Q in
  emit (TextWrite progress_text
          (ProcessingCount i total_urls batch_num elapsed_time))
    (emit (BarProgress progress_bar i total_urls) (snd (time_time env w1))).

(** The progress values set in a trace: the bar, the index and the total of
    each [progress_bar.progress(i / total_urls)], in order. *)
Definition progress_of (t : list event) : list (nat * nat * nat) :=
  omap (fun e => match e with
                 | BarProgress bar i total => Some (bar, i, total)
                 | _ => None
                 end) t.

(** The URLs announced by [st.write("Processing URL ...")], in order. *)
Definition processed (t : list event) : list string :=
  omap (fun e => match e with
                 | StWrite (ProcessingUrl _ _ _ base_url) => Some base_url
                 | _ => None
                 end) t.

(** The events the collector can add to a trace. *)
Definition collector_event (e : event) : Prop :=
  match e with
  | HttpGet _ _ | StWarning _ | StError _ => True
  | _ => False
  end.

(** The batch processor in the words of the specification: the URLs of the
    batch are taken strictly in list order; for each one the collector is
    called and, once it has returned, the progress is set to index / total.
    [rs] lists what the collector returned for each URL. *)
Inductive urls_in_order (env : Env) (fuel : nat)
    (batch_num progress_bar progress_text total_urls : nat)
    : nat -> list string -> World -> list (list record) -> World -> Prop :=
  | urls_done i w :
      urls_in_order env fuel batch_num progress_bar progress_text total_urls
        i [] w [] w
  | urls_next i base_url urls w products w1 rs w' :
      collect_all_products env fuel base_url 35
        (url_entered env i total_urls batch_num base_url w) = Some (products, w1) ->
      urls_in_order env fuel batch_num progress_bar progress_text total_urls
        (S i) urls
        (url_left env progress_bar progress_text i total_urls batch_num w w1)
        rs w' ->
      urls_in_order env fuel batch_num progress_bar progress_text total_urls
        i (base_url :: urls) w (products :: rs) w'.

(** The handles [st.progress(0)] and [st.empty()] return when a batch is
    started in world [w], and the world in which [process_batch] is called. *)
Definition bar_of (w : World) : nat := S (length (trace w)).
Definition text_of (w : World) : nat := S (S (length (trace w))).

Definition batch_entered (batch_num : nat) (w : World) : World :=
  emit StEmpty (emit StProgress (emit (SpinnerEnter (CollectingBatch batch_num)) w)).

(** The world when the [with st.spinner] block of a batch is left,
    [process_batch] having returned [batch_data] in world [w1]. *)
Definition batch_left (batch_num : nat) (batch_data : list record)
    (w1 : World) : World :=
  emit SpinnerExit (show_batch batch_num batch_data w1).

(** The orchestrator in the words of the specification: the batches are
    processed strictly in order, each one shown once it is complete.
    [datas] lists what the batch processor returned for each batch. *)
Inductive batches_in_order (env : Env) (fuel : nat)
    : nat -> list (list string) -> World -> list (list record) -> World -> Prop :=
  | batches_done n w :
      batches_in_order env fuel n [] w [] w
  | batches_next n batch batches w batch_data w1 datas w' :
      process_batch env fuel batch n (bar_of w) (text_of w) (batch_entered n w) =
        Some (batch_data, w1) ->
      batches_in_order env fuel (S n) batches (batch_left n batch_data w1) datas w' ->
      batches_in_order env fuel n (batch :: batches) w (batch_data :: datas) w'.

(** The rows of every combined download offered in a trace. *)
Definition combined_exports (t : list event) : list (list record) :=
  omap (fun e => match e with
                 | StDownloadButton AllCsv rows => Some rows
                 | _ => None
                 end) t.

(** The per-batch downloads offered in a trace: batch number and rows. *)
Definition batch_exports (t : list event) : list (nat * list record) :=
  omap (fun e => match e with
                 | StDownloadButton (BatchCsv n) rows => Some (n, rows)
                 | _ => None
                 end) t.

(** The tables displayed in a trace. *)
Definition tables (t : list event) : list (list record) :=
  omap (fun e => match e with StDataframe rows => Some rows | _ => None end) t.

(** The events [process_batch] can add to a trace. *)
Definition batch_event (e : event) : Prop :=
  match e with
  | HttpGet _ _ | StWarning _ | StError _
  | StWrite _ | BarProgress _ _ _ | TextWrite _ _ => True
  | _ => False
  end.

(** The downloads the specification promises for the batches that have
    records: [datas] numbered from [n], the empty ones left out. *)
Fixpoint batch_downloads (n : nat) (datas : list (list record))
    : list (nat * list record) :=
  match datas with
  | [] => []
  | [] :: datas => batch_downloads (S n) datas
  | (_ :: _) as batch_data :: datas => (n, batch_data) :: batch_downloads (S n) datas
  end.

(** A record of the result that the pagination loop of [base_url] made of
    a product served on one of its pages. *)
Definition produced_by (env : Env) (base_url : string) (r : record) : Prop :=
  exists page raw,
    1 <= page /\ raw ∈ served env base_url page /\ r = stamp base_url raw.

(** The network of [env], but with a genuinely empty page at [url]. *)
Definition answer_empty (env : Env) (url : string) : Env :=
  mkEnv (clock env)
    (fun u => if decide (u = url) then Success (Some []) else http_get env u).

(** Two runs end alike: both run out of fuel, or both return, with the same
    records and after the same number of clock readings. *)
Definition agree (o1 o2 : option (list record * World)) : Prop :=
  match o1, o2 with
  | Some (r1, w1), Some (r2, w2) => r1 = r2 /\ reads w1 = reads w2
  | None, None => True
  | _, _ => False
  end.

(** ** Example storefronts

    The run of the specification's example: [https://a.test] serves two
    products on page 1 and nothing on page 2, [https://b.test] serves
    nothing; the clock advances one second per reading. *)

Definition tee : record := {[ "title" := VStr "tee"; "source_url" := VStr "upstream" ]}.
Definition mug : record := {[ "title" := VStr "mug"; "id" := VInt 7 ]}.

Definition shop_http_get (url : string) : outcome :=
  if String.eqb url "https://a.test/products.json?page=1" then Success (Some [tee; mug])
  else if String.eqb url "https://a.test/products.json?page=2" then Success (Some [])
  else if String.eqb url "https://slow.test/products.json?page=1" then Timeout
  else if String.eqb url "https://down.test/products.json?page=1" then Failure "503"
  else Success None.

Definition shop_env : Env :=
  mkEnv (fun n => inject_Z (Z.of_nat n)) shop_http_get.

(** The same storefronts read by a clock that advances twenty seconds per
    reading. *)
Definition slow_env : Env :=
  mkEnv (fun n => inject_Z (20 * Z.of_nat n)) shop_http_get.

Definition w0 : World := mkWorld 0 [].

(** An upload with four links, one batch each; only the second storefront
    has products. *)
Definition four_links : gmap string (list string) :=
  {[ "link" := ["https://b.test"; "https://a.test"; "https://b.test"; "https://b.test"] ]}.

(** An upload without a [link] column, and one with two links. *)
Definition no_link_column : gmap string (list string) :=
  {[ "url" := ["https://a.test"] ]}.

Definition two_links : gmap string (list string) :=
  {[ "link" := ["https://a.test"; "https://b.test"] ]}.


(** * Properties *)

Section Collector.
Context (env : Env) (base_url : string).

Lemma fetch_products_eq page timeout w :
  fetch_products env base_url page timeout w =
  (served env base_url page,
   mkWorld (reads w) (trace w ++ fetch_events env base_url page timeout)).
Proof.
  unfold fetch_products, served, fetch_events, emit.
  destruct (http_get env (products_url base_url page)); simpl;
    rewrite <- ?app_assoc; reflexivity.
Qed.

Lemma stamp_source_url (product : record) :
  stamp base_url product !! "source_url" = Some (VStr base_url).
Proof. apply lookup_insert_eq. Qed.

Lemma collect_loop_step fuel budget start products page w :
  (clock env (reads w) - start <= budget)%Q ->
  served env base_url page <> [] ->
  collect_loop env (S fuel) base_url budget start products page w =
  collect_loop env fuel base_url budget start
    (products ++ served env base_url page) (S page)
    (mkWorld (S (reads w)) (trace w ++ fetch_events env base_url page 10)).
Proof.
  intros Hle Hne. simpl.
  destruct (Qlt_le_dec budget (clock env (reads w) - start)) as [Hlt|_].
  - exfalso. lra.
  - rewrite fetch_products_eq. simpl.
    destruct (served env base_url page); [congruence | reflexivity].
Qed.

(** [n] pages that are not empty, each fetched within the budget, take the
    loop [n] iterations further. *)
Lemma collect_loop_pages budget start n :
  forall fuel products page w,
    (forall p, page <= p < page + n -> served env base_url p <> []) ->
    (forall j, j < n -> (clock env (reads w + j) - start <= budget)%Q) ->
    collect_loop env (n + fuel) base_url budget start products page w =
    collect_loop env fuel base_url budget start
      (products ++ concat (served env base_url <$> seq page n)) (page + n)
      (mkWorld (reads w + n)
         (trace w ++ concat ((fun p => fetch_events env base_url p 10) <$> seq page n))).
Proof.
  induction n as [|n IH]; intros fuel products page w Hpages Hclock.
  - simpl. rewrite !app_nil_r, !Nat.add_0_r. destruct w; reflexivity.
  - replace (S n + fuel) with (S (n + fuel)) by lia.
    rewrite collect_loop_step.
    + rewrite IH.
      * cbn [reads trace].
        replace (S page + n) with (page + S n) by lia.
        replace (S (reads w) + n) with (reads w + S n) by lia.
        rewrite <- !app_assoc. reflexivity.
      * intros p Hp. apply Hpages. lia.
      * intros j Hj. cbn [reads].
        replace (S (reads w) + j) with (reads w + S j) by lia.
        apply Hclock. lia.
    + specialize (Hclock 0). rewrite Nat.add_0_r in Hclock. apply Hclock. lia.
    + apply Hpages. lia.
Qed.

Lemma collect_loop_empty fuel budget start products page w :
  (clock env (reads w) - start <= budget)%Q ->
  served env base_url page = [] ->
  collect_loop env (S fuel) base_url budget start products page w =
  Some (stamp base_url <$> products,
        mkWorld (S (reads w)) (trace w ++ fetch_events env base_url page 10)).
Proof.
  intros Hle He. simpl.
  destruct (Qlt_le_dec budget (clock env (reads w) - start)) as [Hlt|_].
  - exfalso. lra.
  - rewrite fetch_products_eq, He. reflexivity.
Qed.

Lemma collect_loop_abort fuel budget start products page w :
  (budget < clock env (reads w) - start)%Q ->
  collect_loop env (S fuel) base_url budget start products page w =
  Some ([], mkWorld (S (reads w)) (trace w ++ [StWarning (TookTooLong base_url)])).
Proof.
  intros Hlt. simpl.
  destruct (Qlt_le_dec budget (clock env (reads w) - start)) as [_|Hle].
  - reflexivity.
  - exfalso. lra.
Qed.

End Collector.

(** Fuel is a device of the model: a run that returns is not changed by
    more fuel. *)
Lemma collect_loop_more_fuel env base_url budget start fuel n :
  forall products page w r,
    collect_loop env fuel base_url budget start products page w = Some r ->
    collect_loop env (fuel + n) base_url budget start products page w = Some r.
Proof.
  induction fuel as [|fuel IH]; intros products page w r Hrun; [discriminate|].
  cbn [collect_loop Nat.add] in Hrun |- *.
  destruct (time_time env w) as [now w1].
  destruct (Qlt_le_dec budget (now - start)); [exact Hrun|].
  destruct (fetch_products env base_url page 10 w1) as [[|x xs] w2];
    [exact Hrun|].
  apply IH. exact Hrun.
Qed.

Lemma collect_all_products_more_fuel env fuel n base_url budget w r :
  collect_all_products env fuel base_url budget w = Some r ->
  collect_all_products env (fuel + n) base_url budget w = Some r.
Proof.
  unfold collect_all_products. destruct (time_time env w) as [start w1].
  apply collect_loop_more_fuel.
Qed.

Lemma requests_app (t1 t2 : list event) :
  requests (t1 ++ t2) = requests t1 ++ requests t2.
Proof. apply omap_app. Qed.

Lemma requests_fetch_events env base_url page n :
  requests (concat ((fun p => fetch_events env base_url p 10) <$> seq page n)) =
  products_url base_url <$> seq page n.
Proof.
  revert page. induction n as [|n IH]; intros page; [reflexivity|].
  cbn [seq fmap list_fmap concat]. rewrite requests_app.
  change (list_fmap _ _ ?f ?l) with (f <$> l). rewrite IH.
  unfold fetch_events.
  destruct (http_get env (products_url base_url page)); reflexivity.
Qed.

(** The collector on a storefront with [k] pages of products. *)
Lemma collect_all_products_run env base_url budget k fuel w :
  (forall p, 1 <= p <= k -> served env base_url p <> []) ->
  served env base_url (S k) = [] ->
  (forall j, 1 <= j <= S k -> (elapsed_at env w j <= budget)%Q) ->
  k < fuel ->
  collect_all_products env fuel base_url budget w =
  Some (stamp base_url <$> concat (served env base_url <$> seq 1 k),
        mkWorld (reads w + S (S k))
          (trace w ++
           concat ((fun p => fetch_events env base_url p 10) <$> seq 1 (S k)))).
Proof.
  intros Hpages Hlast Hclock Hfuel.
  unfold collect_all_products, time_time.
  replace fuel with (k + S (fuel - S k)) by lia.
  rewrite collect_loop_pages.
  - rewrite collect_loop_empty.
    + cbn [reads trace]. rewrite app_nil_l, seq_S.
      rewrite (fmap_app (fun p => fetch_events env base_url p 10)), concat_app.
      cbn [fmap list_fmap concat]. rewrite app_nil_r, <- app_assoc.
      repeat f_equal. lia.
    + cbn [reads]. specialize (Hclock (S k)). unfold elapsed_at in Hclock.
      replace (S (reads w) + k) with (reads w + S k) by lia. apply Hclock. lia.
    + exact Hlast.
  - intros p Hp. apply Hpages. lia.
  - intros j Hj. cbn [reads]. specialize (Hclock (S j)). unfold elapsed_at in Hclock.
    replace (S (reads w) + j) with (reads w + S j) by lia. apply Hclock. lia.
Qed.

(** C1. When pages 1..k of a base URL hold products, page k+1 holds none and
    no budget check finds the elapsed time above the budget, the collector
    returns the records of pages 1..k, concatenated in page order, each with
    [source_url] set to the base URL; it requests pages 1, 2, ..., k+1, each
    once and in this order. *)
Theorem collect_all_products_pages env base_url budget k fuel w :
  (forall p, 1 <= p <= k -> served env base_url p <> []) ->
  served env base_url (S k) = [] ->
  (forall j, 1 <= j <= S k -> (elapsed_at env w j <= budget)%Q) ->
  k < fuel ->
  exists w',
    collect_all_products env fuel base_url budget w =
      Some (stamp base_url <$> concat (served env base_url <$> seq 1 k), w') /\
    Forall (fun r : record => r !! "source_url" = Some (VStr base_url))
      (stamp base_url <$> concat (served env base_url <$> seq 1 k)) /\
    requests (trace w') =
      requests (trace w) ++ (products_url base_url <$> seq 1 (S k)).
Proof.
  intros Hpages Hlast Hclock Hfuel. eexists. split; [|split].
  - apply collect_all_products_run; assumption.
  - apply Forall_fmap, Forall_true. intros r. apply stamp_source_url.
  - cbn [trace]. rewrite requests_app, requests_fetch_events. reflexivity.
Qed.

Lemma collect_all_products_pages_witness :
  exists w',
    collect_all_products shop_env 2 "https://a.test" 35 w0 =
      Some (stamp "https://a.test" <$>
              concat (served shop_env "https://a.test" <$> seq 1 1), w') /\
    Forall (fun r : record => r !! "source_url" = Some (VStr "https://a.test"))
      (stamp "https://a.test" <$>
         concat (served shop_env "https://a.test" <$> seq 1 1)) /\
    requests (trace w') =
      requests (trace w0) ++ (products_url "https://a.test" <$> seq 1 2).
Proof.
  apply (collect_all_products_pages shop_env "https://a.test" 35 1 2 w0).
  - intros p Hp. assert (p = 1) as -> by lia. vm_compute. discriminate.
  - vm_compute. reflexivity.
  - intros j Hj. assert (j = 1 \/ j = 2) as [-> | ->] by lia; vm_compute; discriminate.
  - lia.
Defined.

(** One pass through the body of the loop of [process_batch]. *)
Lemma process_batch_loop_cons env fuel bn pb pt total i base_url urls data w products w1 :
  collect_all_products env fuel base_url 35 (url_entered env i total bn base_url w) =
    Some (products, w1) ->
  process_batch_loop env fuel bn pb pt total i (base_url :: urls) data w =
  process_batch_loop env fuel bn pb pt total (S i) urls (data ++ products)
    (url_left env pb pt i total bn w w1).
Proof.
  intros Hc. cbn [process_batch_loop]. unfold url_entered in Hc.
  destruct (time_time env w) as [start_time ws] eqn:Hs. cbn [snd] in Hc.
  rewrite Hc. unfold url_left. rewrite Hs.
  destruct (time_time env w1) as [end_time we]. cbn [fst snd].
  destruct products; [rewrite app_nil_r|]; reflexivity.
Qed.

Lemma process_batch_loop_fuel env fuel bn pb pt total i base_url urls data w :
  collect_all_products env fuel base_url 35 (url_entered env i total bn base_url w) = None ->
  process_batch_loop env fuel bn pb pt total i (base_url :: urls) data w = None.
Proof.
  intros Hc. cbn [process_batch_loop]. unfold url_entered in Hc.
  destruct (time_time env w) as [start_time ws]. cbn [snd] in Hc.
  rewrite Hc. reflexivity.
Qed.

(** C2. When the budget check made after [k] pages of products finds the
    elapsed time above the budget, the collector returns the empty list,
    whatever it had gathered, and the last thing it does is to report the
    warning. Called by [process_batch] with the budget of 35, the batch goes
    on with the next URL and the records gathered before this URL. *)
Theorem collect_all_products_over_budget env base_url budget k fuel w :
  (forall p, 1 <= p <= k -> served env base_url p <> []) ->
  (forall j, 1 <= j <= k -> (elapsed_at env w j <= budget)%Q) ->
  (budget < elapsed_at env w (S k))%Q ->
  k < fuel ->
  let w' :=
    mkWorld (reads w + S (S k))
      (trace w ++
       concat ((fun p => fetch_events env base_url p 10) <$> seq 1 k) ++
       [StWarning (TookTooLong base_url)]) in
  collect_all_products env fuel base_url budget w = Some ([], w') /\
  forall bn pb pt total i urls data wp,
    budget = 35%Q ->
    w = url_entered env i total bn base_url wp ->
    process_batch_loop env fuel bn pb pt total i (base_url :: urls) data wp =
    process_batch_loop env fuel bn pb pt total (S i) urls data
      (url_left env pb pt i total bn wp w').
Proof.
  intros Hpages Hclock Hover Hfuel w'.
  assert (collect_all_products env fuel base_url budget w = Some ([], w')) as Hc.
  { unfold collect_all_products, time_time.
    replace fuel with (k + S (fuel - S k)) by lia.
    rewrite collect_loop_pages.
    - rewrite collect_loop_abort.
      + subst w'. cbn [reads trace]. rewrite <- app_assoc.
        repeat f_equal. lia.
      + cbn [reads]. unfold elapsed_at in Hover.
        replace (S (reads w) + k) with (reads w + S k) by lia. exact Hover.
    - intros p Hp. apply Hpages. lia.
    - intros j Hj. cbn [reads]. specialize (Hclock (S j)).
      unfold elapsed_at in Hclock.
      replace (S (reads w) + j) with (reads w + S j) by lia. apply Hclock. lia. }
  split; [exact Hc|].
  intros bn pb pt total i urls data wp -> ->.
  rewrite (process_batch_loop_cons _ _ _ _ _ _ _ _ _ _ _ _ _ Hc).
  rewrite app_nil_r. reflexivity.
Qed.

Lemma collect_all_products_over_budget_witness :
  let w := url_entered slow_env 1 1 1 "https://a.test" w0 in
  let w' :=
    mkWorld 4 [StWrite (ProcessingUrl 1 1 1 "https://a.test");
               HttpGet "https://a.test/products.json?page=1" 10;
               StWarning (TookTooLong "https://a.test")] in
  collect_all_products slow_env 2 "https://a.test" 35 w = Some ([], w') /\
  process_batch_loop slow_env 2 1 0 1 1 1 ["https://a.test"] [] w0 =
  process_batch_loop slow_env 2 1 0 1 1 2 [] [] (url_left slow_env 0 1 1 1 1 w0 w').
Proof.
  intros w w'.
  destruct (collect_all_products_over_budget slow_env "https://a.test" 35 1 2 w)
    as [Hc Hrest].
  - intros p Hp. assert (p = 1) as -> by lia. vm_compute. discriminate.
  - intros j Hj. assert (j = 1) as -> by lia. vm_compute. discriminate.
  - vm_compute. reflexivity.
  - lia.
  - split; [exact Hc|].
    exact (Hrest 1 0 1 1 1 [] [] w0 eq_refl eq_refl).
Defined.

(** ** Batches *)

Lemma slice_length {A : Type} (a b : nat) (l : list A) :
  b <= length l -> length (slice a b l) = b - a.
Proof. intros Hb. unfold slice. rewrite length_take, length_drop. lia. Qed.

Lemma slice_lookup {A : Type} (a b j : nat) (l : list A) :
  j < b - a -> slice a b l !! j = l !! (a + j).
Proof.
  intros Hj. unfold slice. rewrite lookup_take_lt by exact Hj.
  apply lookup_drop.
Qed.

Lemma slice_app {A : Type} (a b c : nat) (l : list A) :
  a <= b <= c -> slice a b l ++ slice b c l = slice a c l.
Proof.
  intros Habc. unfold slice.
  replace (drop b l) with (drop (b - a) (drop a l))
    by (rewrite drop_drop; f_equal; lia).
  rewrite take_take_drop. f_equal. lia.
Qed.

Lemma concat_slices (links : list string) (batch_size n : nat) :
  concat ((fun i => slice (i * batch_size) ((i + 1) * batch_size) links) <$> seq 0 n) =
  slice 0 (n * batch_size) links.
Proof.
  induction n as [|n IH]; [reflexivity|].
  rewrite seq_S, fmap_app, concat_app, IH. cbn [fmap list_fmap concat].
  rewrite app_nil_r. rewrite Nat.add_0_l, Nat.add_1_r.
  apply slice_app. lia.
Qed.

(** C3. The links are cut into 4 batches of exactly [N / 4] links each;
    batch [i] holds the links at the indices [i * (N / 4)] up to
    [(i + 1) * (N / 4) - 1], in order; together the batches are the first
    [4 * (N / 4)] links, so a link at a later index is in no batch. *)
Theorem make_batches_partition (links : list string) :
  let batch_size := length links / num_batches in
  length (make_batches links) = num_batches /\
  (forall i, i < num_batches ->
     exists batch,
       make_batches links !! i = Some batch /\
       length batch = batch_size /\
       forall j, j < batch_size -> batch !! j = links !! (i * batch_size + j)) /\
  concat (make_batches links) = take (num_batches * batch_size) links.
Proof.
  intros batch_size.
  assert (num_batches * batch_size <= length links) as Hle
    by (apply Nat.Div0.mul_div_le).
  split; [reflexivity|]. split.
  - intros i Hi.
    exists (slice (i * batch_size) ((i + 1) * batch_size) links).
    split; [|split].
    + unfold make_batches. fold batch_size.
      rewrite list_lookup_fmap, lookup_seq_lt by exact Hi. reflexivity.
    + rewrite slice_length; unfold num_batches in *; nia.
    + intros j Hj. apply slice_lookup. lia.
  - unfold make_batches. fold batch_size. rewrite concat_slices.
    unfold slice. rewrite drop_0, Nat.sub_0_r. reflexivity.
Qed.

Lemma make_batches_partition_witness :
  exists batch,
    make_batches ["a"; "b"; "c"; "d"; "e"; "f"; "g"; "h"; "i"] !! 2 = Some batch /\
    length batch = 2 /\
    forall j, j < 2 ->
      batch !! j = ["a"; "b"; "c"; "d"; "e"; "f"; "g"; "h"; "i"] !! (2 * 2 + j).
Proof.
  apply (proj1 (proj2 (make_batches_partition
                         ["a"; "b"; "c"; "d"; "e"; "f"; "g"; "h"; "i"])) 2).
  unfold num_batches. lia.
Defined.

Example make_batches_nine :
  make_batches ["a"; "b"; "c"; "d"; "e"; "f"; "g"; "h"; "i"] =
  [["a"; "b"]; ["c"; "d"]; ["e"; "f"]; ["g"; "h"]].
Proof. reflexivity. Qed.

(** ** The batch processor *)

Lemma collect_loop_trace env base_url budget start fuel :
  forall products page w res w',
    collect_loop env fuel base_url budget start products page w = Some (res, w') ->
    exists t, trace w' = trace w ++ t /\ Forall collector_event t.
Proof.
  induction fuel as [|fuel IH]; intros products page w res w' Hrun; [discriminate|].
  cbn [collect_loop] in Hrun. unfold time_time in Hrun.
  destruct (Qlt_le_dec budget (clock env (reads w) - start)).
  - inversion Hrun; subst. eexists. split; [reflexivity|].
    repeat constructor.
  - rewrite fetch_products_eq in Hrun. cbn [reads trace] in Hrun.
    assert (Forall collector_event (fetch_events env base_url page 10)) as Hfe.
    { unfold fetch_events.
      destruct (http_get env (products_url base_url page)); repeat constructor. }
    destruct (served env base_url page).
    + inversion Hrun; subst. eexists. split; [reflexivity|exact Hfe].
    + apply IH in Hrun as (t & Ht & Hall). cbn [trace] in Ht.
      exists (fetch_events env base_url page 10 ++ t).
      rewrite Ht, <- app_assoc. split; [reflexivity|].
      apply Forall_app. split; assumption.
Qed.

Lemma collect_all_products_trace env fuel base_url budget w res w' :
  collect_all_products env fuel base_url budget w = Some (res, w') ->
  exists t, trace w' = trace w ++ t /\ Forall collector_event t.
Proof.
  unfold collect_all_products, time_time. intros Hrun.
  apply collect_loop_trace in Hrun. exact Hrun.
Qed.

Lemma progress_of_collector t : Forall collector_event t -> progress_of t = [].
Proof.
  induction 1 as [|e t He _ IH]; [reflexivity|].
  destruct e; try contradiction; exact IH.
Qed.

Lemma processed_collector t : Forall collector_event t -> processed t = [].
Proof.
  induction 1 as [|e t He _ IH]; [reflexivity|].
  destruct e; try contradiction; exact IH.
Qed.

Lemma process_batch_loop_spec env fuel bn pb pt total urls :
  forall i data w res w',
    process_batch_loop env fuel bn pb pt total i urls data w = Some (res, w') <->
    exists rs, urls_in_order env fuel bn pb pt total i urls w rs w' /\
               res = data ++ concat rs.
Proof.
  induction urls as [|base_url urls IH]; intros i data w res w'.
  - cbn [process_batch_loop]. split.
    + intros [= <- <-]. exists []. split; [constructor|].
      rewrite app_nil_r. reflexivity.
    + intros (rs & Hrel & ->). inversion Hrel; subst.
      rewrite app_nil_r. reflexivity.
  - destruct (collect_all_products env fuel base_url 35
                (url_entered env i total bn base_url w))
      as [[products w1]|] eqn:Hc.
    + rewrite (process_batch_loop_cons _ _ _ _ _ _ _ _ _ _ _ _ _ Hc), IH. split.
      * intros (rs & Hrel & ->). exists (products :: rs). split.
        -- econstructor; eassumption.
        -- cbn [concat]. rewrite app_assoc. reflexivity.
      * intros (rs & Hrel & ->). inversion Hrel; subst.
        match goal with H : collect_all_products _ _ _ _ _ = Some _ |- _ =>
          rewrite Hc in H; injection H as <- <- end.
        eexists. split; [eassumption|].
        cbn [concat]. rewrite app_assoc. reflexivity.
    + rewrite (process_batch_loop_fuel _ _ _ _ _ _ _ _ _ _ _ Hc). split.
      * discriminate.
      * intros (rs & Hrel & _). inversion Hrel; subst. congruence.
Qed.

Lemma urls_in_order_trace env fuel bn pb pt total i urls w rs w' :
  urls_in_order env fuel bn pb pt total i urls w rs w' ->
  progress_of (trace w') =
    progress_of (trace w) ++ ((fun k => (pb, k, total)) <$> seq i (length urls)) /\
  processed (trace w') = processed (trace w) ++ urls.
Proof.
  induction 1 as [i w|i base_url urls w products w1 rs w' Hc _ [IHp IHu]].
  - cbn. rewrite !app_nil_r. split; reflexivity.
  - apply collect_all_products_trace in Hc as (t & Ht & Hall).
    unfold url_entered, url_left, time_time, emit in *. cbn [fst snd trace] in *.
    rewrite IHp, IHu, Ht. unfold progress_of, processed.
    rewrite !omap_app.
    fold (progress_of t) (processed t).
    rewrite (progress_of_collector t Hall), (processed_collector t Hall).
    cbn. rewrite !app_nil_r, <- !app_assoc. split; reflexivity.
Qed.

(** C7. The batch processor calls the collector on each URL of the batch in
    list order, one after the other, sets the progress to index / total once
    the URL is done, and returns the records the collector returned,
    concatenated in the order of the URLs. *)
Theorem process_batch_in_order env fuel batch bn pb pt w data w' :
  (process_batch env fuel batch bn pb pt w = Some (data, w') <->
   exists rs,
     urls_in_order env fuel bn pb pt (length batch) 1 batch w rs w' /\
     data = concat rs) /\
  (process_batch env fuel batch bn pb pt w = Some (data, w') ->
   progress_of (trace w') =
     progress_of (trace w) ++
     ((fun i => (pb, i, length batch)) <$> seq 1 (length batch)) /\
   processed (trace w') = processed (trace w) ++ batch).
Proof.
  unfold process_batch. split.
  - rewrite process_batch_loop_spec. reflexivity.
  - intros Hrun. apply process_batch_loop_spec in Hrun as (rs & Hrel & _).
    eapply urls_in_order_trace. exact Hrel.
Qed.

Lemma process_batch_in_order_witness :
  exists data w',
    process_batch shop_env 2 ["https://a.test"; "https://b.test"] 1 0 1 w0 =
      Some (data, w') /\
    progress_of (trace w') = [(0, 1, 2); (0, 2, 2)] /\
    processed (trace w') = ["https://a.test"; "https://b.test"].
Proof.
  destruct (process_batch shop_env 2 ["https://a.test"; "https://b.test"] 1 0 1 w0)
    as [[data w']|] eqn:Hrun.
  - exists data, w'. split; [reflexivity|].
    exact (proj2 (process_batch_in_order shop_env 2
                    ["https://a.test"; "https://b.test"] 1 0 1 w0 data w') Hrun).
  - vm_compute in Hrun. discriminate.
Defined.

Example process_batch_shop :
  fst <$> process_batch shop_env 2 ["https://a.test"; "https://b.test"] 1 0 1 w0 =
  Some [stamp "https://a.test" tee; stamp "https://a.test" mug].
Proof. vm_compute. reflexivity. Qed.

(** ** The orchestrator *)

Lemma run_batches_unfold env fuel n batch batches all w :
  run_batches env fuel n (batch :: batches) all w =
  match process_batch env fuel batch n (bar_of w) (text_of w) (batch_entered n w) with
  | None => None
  | Some (batch_data, w1) =>
      run_batches env fuel (S n) batches (all ++ batch_data)
        (batch_left n batch_data w1)
  end.
Proof.
  cbn [run_batches].
  unfold st_progress, st_empty, bar_of, text_of, batch_entered, batch_left, emit.
  cbn [trace reads]. rewrite !length_app. cbn [length]. rewrite !Nat.add_1_r.
  reflexivity.
Qed.

Lemma run_batches_cons env fuel n batch batches all w batch_data w1 :
  process_batch env fuel batch n (bar_of w) (text_of w) (batch_entered n w) =
    Some (batch_data, w1) ->
  run_batches env fuel n (batch :: batches) all w =
  run_batches env fuel (S n) batches (all ++ batch_data) (batch_left n batch_data w1).
Proof. intros Hp. rewrite run_batches_unfold, Hp. reflexivity. Qed.

Lemma run_batches_fuel env fuel n batch batches all w :
  process_batch env fuel batch n (bar_of w) (text_of w) (batch_entered n w) = None ->
  run_batches env fuel n (batch :: batches) all w = None.
Proof. intros Hp. rewrite run_batches_unfold, Hp. reflexivity. Qed.

Lemma run_batches_spec env fuel batches :
  forall n all w res w',
    run_batches env fuel n batches all w = Some (res, w') <->
    exists datas, batches_in_order env fuel n batches w datas w' /\
                  res = all ++ concat datas.
Proof.
  induction batches as [|batch batches IH]; intros n all w res w'.
  - cbn [run_batches]. split.
    + intros [= <- <-]. exists []. split; [constructor|].
      rewrite app_nil_r. reflexivity.
    + intros (datas & Hrel & ->). inversion Hrel; subst.
      rewrite app_nil_r. reflexivity.
  - destruct (process_batch env fuel batch n (bar_of w) (text_of w) (batch_entered n w))
      as [[batch_data w1]|] eqn:Hp.
    + rewrite (run_batches_cons _ _ _ _ _ _ _ _ _ Hp), IH. split.
      * intros (datas & Hrel & ->). exists (batch_data :: datas). split.
        -- econstructor; eassumption.
        -- cbn [concat]. rewrite app_assoc. reflexivity.
      * intros (datas & Hrel & ->). inversion Hrel; subst.
        match goal with H : process_batch _ _ _ _ _ _ _ = Some _ |- _ =>
          rewrite Hp in H; injection H as <- <- end.
        eexists. split; [eassumption|].
        cbn [concat]. rewrite app_assoc. reflexivity.
    + rewrite (run_batches_fuel _ _ _ _ _ _ _ Hp). split.
      * discriminate.
      * intros (datas & Hrel & _). inversion Hrel; subst. congruence.
Qed.

Lemma urls_in_order_events env fuel bn pb pt total i urls w rs w' :
  urls_in_order env fuel bn pb pt total i urls w rs w' ->
  exists t, trace w' = trace w ++ t /\ Forall batch_event t.
Proof.
  induction 1 as [i w|i base_url urls w products w1 rs w' Hc _ (t' & Ht' & Hall')].
  - exists []. rewrite app_nil_r. split; constructor.
  - apply collect_all_products_trace in Hc as (t & Ht & Hall).
    unfold url_entered, url_left, time_time, emit in *. cbn [fst snd trace] in *.
    eexists. rewrite Ht', Ht, <- !app_assoc. split; [reflexivity|].
    apply Forall_app. split; [repeat constructor|].
    apply Forall_app. split.
    + eapply Forall_impl; [exact Hall|]. intros []; simpl; tauto.
    + apply Forall_app. split; [repeat constructor|].
      apply Forall_app. split; [repeat constructor|exact Hall'].
Qed.

Lemma process_batch_events env fuel batch bn pb pt w data w' :
  process_batch env fuel batch bn pb pt w = Some (data, w') ->
  exists t, trace w' = trace w ++ t /\ Forall batch_event t.
Proof.
  unfold process_batch. intros Hrun.
  apply process_batch_loop_spec in Hrun as (rs & Hrel & _).
  eapply urls_in_order_events. exact Hrel.
Qed.

Lemma batch_event_exports t :
  Forall batch_event t ->
  combined_exports t = [] /\ batch_exports t = [] /\ tables t = [].
Proof.
  induction 1 as [|e t He _ IH]; [repeat split|].
  destruct e; try contradiction; exact IH.
Qed.

Lemma batches_in_order_exports env fuel n batches w datas w' :
  batches_in_order env fuel n batches w datas w' ->
  combined_exports (trace w') = combined_exports (trace w) /\
  batch_exports (trace w') = batch_exports (trace w) ++ batch_downloads n datas /\
  tables (trace w') = tables (trace w) ++ (snd <$> batch_downloads n datas).
Proof.
  induction 1 as [n w|n batch batches w batch_data w1 datas w' Hp _ (IHc & IHb & IHt)].
  - cbn. rewrite !app_nil_r. repeat split.
  - apply process_batch_events in Hp as (t & Ht & Hall).
    apply batch_event_exports in Hall as (Hc & Hb & Hd).
    rewrite IHc, IHb, IHt. unfold batch_left, show_batch, batch_entered, emit in *.
    cbn [trace reads] in Ht.
    unfold combined_exports, batch_exports, tables in *.
    destruct batch_data; cbn [trace reads batch_downloads fmap list_fmap snd];
      rewrite Ht, !omap_app, ?Hc, ?Hb, ?Hd; cbn;
      rewrite ?app_nil_r, <- ?app_assoc; repeat split.
Qed.

(** C5. The rows of the combined download are the per-batch record lists,
    concatenated in batch order, each list as the batch processor returned
    it; the download is offered once, at the end, when there is a record. *)
Theorem combined_export_in_batch_order env fuel batches w all_results wf :
  (collect_from_all_batches env fuel batches w = Some (all_results, wf) <->
   exists datas w',
     batches_in_order env fuel 1 batches w datas w' /\
     all_results = concat datas /\
     wf = show_all (concat datas) w') /\
  (collect_from_all_batches env fuel batches w = Some (all_results, wf) ->
   combined_exports (trace wf) =
     combined_exports (trace w) ++
     match all_results with [] => [] | _ :: _ => [all_results] end).
Proof.
  assert (collect_from_all_batches env fuel batches w = Some (all_results, wf) <->
          exists datas w',
            batches_in_order env fuel 1 batches w datas w' /\
            all_results = concat datas /\
            wf = show_all (concat datas) w') as Hiff.
  { unfold collect_from_all_batches.
    destruct (run_batches env fuel 1 batches [] w) as [[res w']|] eqn:Hrun.
    - apply run_batches_spec in Hrun as (datas & Hrel & ->).
      rewrite app_nil_l. split.
      + intros [= <- <-]. exists datas, w'. auto.
      + intros (datas' & w'' & Hrel' & -> & ->).
        assert (run_batches env fuel 1 batches [] w = Some ([] ++ concat datas', w''))
          as Hrun' by (apply run_batches_spec; eauto).
        assert (run_batches env fuel 1 batches [] w = Some ([] ++ concat datas, w'))
          as Hrun by (apply run_batches_spec; eauto).
        rewrite Hrun in Hrun'. injection Hrun' as Hd <-.
        cbn [app] in Hd. rewrite Hd. reflexivity.
    - split; [discriminate|].
      intros (datas & w' & Hrel & _ & _).
      assert (run_batches env fuel 1 batches [] w = Some ([] ++ concat datas, w'))
        as Hrun' by (apply run_batches_spec; eauto).
      congruence. }
  split; [exact Hiff|].
  intros Hrun. apply Hiff in Hrun as (datas & w' & Hrel & -> & ->).
  apply batches_in_order_exports in Hrel as (Hc & _ & _).
  unfold show_all, emit. destruct (concat datas); cbn [trace].
  - rewrite app_nil_r. exact Hc.
  - unfold combined_exports in *. rewrite omap_app, Hc. reflexivity.
Qed.

Lemma combined_export_in_batch_order_witness :
  exists all_results wf,
    collect_from_all_batches shop_env 2
      [["https://b.test"]; ["https://a.test"]] w0 = Some (all_results, wf) /\
    combined_exports (trace wf) =
      combined_exports (trace w0) ++
      match all_results with [] => [] | _ :: _ => [all_results] end.
Proof.
  destruct (collect_from_all_batches shop_env 2
              [["https://b.test"]; ["https://a.test"]] w0)
    as [[all_results wf]|] eqn:Hrun.
  - exists all_results, wf. split; [reflexivity|].
    exact (proj2 (combined_export_in_batch_order shop_env 2
                    [["https://b.test"]; ["https://a.test"]] w0 all_results wf) Hrun).
  - vm_compute in Hrun. discriminate.
Defined.

Lemma run_batches_app env fuel pre :
  forall n post all w,
    run_batches env fuel n (pre ++ post) all w =
    match run_batches env fuel n pre all w with
    | None => None
    | Some (all1, w1) => run_batches env fuel (n + length pre) post all1 w1
    end.
Proof.
  induction pre as [|batch pre IH]; intros n post all w.
  - cbn [app run_batches length]. rewrite Nat.add_0_r. reflexivity.
  - rewrite <- app_comm_cons, !run_batches_unfold.
    destruct (process_batch env fuel batch n (bar_of w) (text_of w) (batch_entered n w))
      as [[batch_data w1]|]; [|reflexivity].
    rewrite IH. cbn [length]. replace (S n + length pre) with (n + S (length pre)) by lia.
    reflexivity.
Qed.

(** C9, as the script has it. Once the batch processor has returned for a
    batch, the run goes on with the later batches from a world in which the
    trace of that batch is followed by its success message, its table and
    its download, when the batch has a record, and by nothing but the end of
    the spinner when it has none. *)
Theorem batch_shown_when_complete env fuel n pre batch post all w all1 w1 batch_data w2 :
  run_batches env fuel n pre all w = Some (all1, w1) ->
  process_batch env fuel batch (n + length pre) (bar_of w1) (text_of w1)
    (batch_entered (n + length pre) w1) = Some (batch_data, w2) ->
  run_batches env fuel n (pre ++ batch :: post) all w =
    run_batches env fuel (S (n + length pre)) post (all1 ++ batch_data)
      (batch_left (n + length pre) batch_data w2) /\
  (batch_data <> [] ->
   trace (batch_left (n + length pre) batch_data w2) =
     trace w2 ++
     [StSuccess (BatchCompleted (n + length pre) (length batch_data));
      StDataframe batch_data;
      StDownloadButton (BatchCsv (n + length pre)) batch_data;
      SpinnerExit]) /\
  (batch_data = [] ->
   trace (batch_left (n + length pre) batch_data w2) = trace w2 ++ [SpinnerExit]).
Proof.
  intros Hpre Hp. split; [|split].
  - rewrite run_batches_app, Hpre. apply run_batches_cons. exact Hp.
  - intros Hne. destruct batch_data; [congruence|].
    unfold batch_left, show_batch, emit. cbn [trace].
    rewrite <- !app_assoc. reflexivity.
  - intros ->. reflexivity.
Qed.

Lemma batch_shown_when_complete_witness :
  exists batch_data w2,
    process_batch shop_env 2 ["https://a.test"] 1 (bar_of w0) (text_of w0)
      (batch_entered 1 w0) = Some (batch_data, w2) /\
    run_batches shop_env 2 1 ([] ++ ["https://a.test"] :: [["https://b.test"]]) [] w0 =
      run_batches shop_env 2 2 [["https://b.test"]] ([] ++ batch_data)
        (batch_left 1 batch_data w2) /\
    trace (batch_left 1 batch_data w2) =
      trace w2 ++
      [StSuccess (BatchCompleted 1 (length batch_data));
       StDataframe batch_data;
       StDownloadButton (BatchCsv 1) batch_data;
       SpinnerExit].
Proof.
  destruct (process_batch shop_env 2 ["https://a.test"] 1 (bar_of w0) (text_of w0)
              (batch_entered 1 w0)) as [[batch_data w2]|] eqn:Hp.
  - exists batch_data, w2. split; [reflexivity|].
    destruct (batch_shown_when_complete shop_env 2 1 [] ["https://a.test"]
                [["https://b.test"]] [] w0 [] w0 batch_data w2 eq_refl Hp)
      as (Hrun & Hshown & _).
    split; [exact Hrun|]. apply Hshown.
    intros ->. vm_compute in Hp. discriminate.
  - vm_compute in Hp. discriminate.
Defined.

(** C9 fails for a batch without records: of the four batches of this run,
    all processed to the end, only the second is given a table and a
    download. *)
Lemma empty_batch_not_shown :
  exists wf,
    app shop_env 2 (Some four_links) true w0 = Some wf /\
    progress_of (trace wf) = [(4, 1, 1); (12, 1, 1); (24, 1, 1); (32, 1, 1)] /\
    fst <$> batch_exports (trace wf) = [2] /\
    length (tables (trace wf)) = 1.
Proof.
  destruct (app shop_env 2 (Some four_links) true w0) as [wf|] eqn:Hrun.
  - exists wf. vm_compute in Hrun. injection Hrun as <-.
    repeat split; vm_compute; reflexivity.
  - vm_compute in Hrun. discriminate.
Qed.

(** ** The script *)

(** C6. Without a column named [link] the script reports the error and
    stops: no request is made, the clock is not even read, whatever the
    button; with the column, the run goes on with the values of the column. *)
Theorem link_column_required env fuel (csv_data : gmap string (list string)) button w :
  (csv_data !! "link" = None ->
   app env fuel (Some csv_data) button w =
     Some (mkWorld (reads w)
             (trace w ++ [StTitle; StFileUploader; StError MissingLinkColumn])) /\
   forall wf, app env fuel (Some csv_data) button w = Some wf ->
     requests (trace wf) = requests (trace w) /\ processed (trace wf) = processed (trace w)) /\
  (forall links, csv_data !! "link" = Some links ->
   app env fuel (Some csv_data) button w =
     let w := emit StButton (emit StFileUploader (emit StTitle w)) in
     if button then snd <$> collect_from_all_batches env fuel (make_batches links) w
     else Some w).
Proof.
  split.
  - intros Hnone.
    assert (app env fuel (Some csv_data) button w =
            Some (mkWorld (reads w)
                    (trace w ++ [StTitle; StFileUploader; StError MissingLinkColumn])))
      as Happ.
    { unfold app. rewrite Hnone. unfold emit. cbn [reads trace].
      rewrite <- !app_assoc. reflexivity. }
    split; [exact Happ|].
    intros wf Hwf. rewrite Happ in Hwf. injection Hwf as <-. cbn [trace].
    unfold requests, processed. rewrite !omap_app. cbn.
    rewrite !app_nil_r. split; reflexivity.
  - intros links Hlinks. unfold app. rewrite Hlinks. reflexivity.
Qed.

Lemma link_column_required_witness :
  app shop_env 2 (Some no_link_column) true w0 =
    Some (mkWorld 0 [StTitle; StFileUploader; StError MissingLinkColumn]) /\
  app shop_env 2 (Some two_links) false w0 =
    Some (mkWorld 0 [StTitle; StFileUploader; StButton]).
Proof.
  split.
  - apply (proj1 (link_column_required shop_env 2 no_link_column true w0)).
    vm_compute. reflexivity.
  - apply (proj2 (link_column_required shop_env 2 two_links false w0)
             ["https://a.test"; "https://b.test"]).
    vm_compute. reflexivity.
Defined.

Lemma make_batches_few (links : list string) :
  length links < num_batches -> make_batches links = [[]; []; []; []].
Proof.
  intros Hlt. unfold make_batches. rewrite Nat.div_small by exact Hlt.
  cbn. reflexivity.
Qed.

(** C10. With fewer links than batches the batch size is 0 and the four
    batches are empty: the run makes no request, processes no URL, reads no
    clock and offers no download, neither for a batch nor the combined one. *)
Theorem fewer_links_than_batches env fuel (csv_data : gmap string (list string))
    links button w :
  csv_data !! "link" = Some links ->
  length links < num_batches ->
  length links / num_batches = 0 /\
  make_batches links = [[]; []; []; []] /\
  exists wf,
    app env fuel (Some csv_data) button w = Some wf /\
    reads wf = reads w /\
    requests (trace wf) = requests (trace w) /\
    processed (trace wf) = processed (trace w) /\
    tables (trace wf) = tables (trace w) /\
    batch_exports (trace wf) = batch_exports (trace w) /\
    combined_exports (trace wf) = combined_exports (trace w).
Proof.
  intros Hlinks Hlt. split; [apply Nat.div_small; exact Hlt|].
  split; [apply make_batches_few; exact Hlt|].
  unfold app. rewrite Hlinks, (make_batches_few links Hlt).
  destruct button; cbn; eexists; (split; [reflexivity|]);
    unfold emit; cbn [reads trace];
    unfold requests, processed, tables, batch_exports, combined_exports;
    rewrite !omap_app; cbn; rewrite !app_nil_r; repeat split.
Qed.

Lemma fewer_links_than_batches_witness :
  make_batches ["https://a.test"; "https://b.test"] = [[]; []; []; []] /\
  exists wf,
    app shop_env 0 (Some two_links) true w0 = Some wf /\
    requests (trace wf) = requests (trace w0) /\
    combined_exports (trace wf) = combined_exports (trace w0).
Proof.
  destruct (fewer_links_than_batches shop_env 0 two_links
              ["https://a.test"; "https://b.test"] true w0)
    as (_ & Hb & wf & Happ & _ & Hreq & _ & _ & _ & Hall).
  - vm_compute. reflexivity.
  - unfold num_batches. cbn. lia.
  - split; [exact Hb|]. exists wf. auto.
Defined.

(** ** Where the records come from *)

Lemma collect_loop_records env base_url budget start fuel :
  forall products page w res w',
    collect_loop env fuel base_url budget start products page w = Some (res, w') ->
    Forall (fun r => exists raw,
              r = stamp base_url raw /\
              (raw ∈ products \/
               exists p, page <= p /\ raw ∈ served env base_url p)) res.
Proof.
  induction fuel as [|fuel IH]; intros products page w res w' Hrun; [discriminate|].
  cbn [collect_loop] in Hrun. unfold time_time in Hrun.
  destruct (Qlt_le_dec budget (clock env (reads w) - start)).
  - injection Hrun as <- _. constructor.
  - rewrite fetch_products_eq in Hrun.
    destruct (served env base_url page) as [|x xs] eqn:Hs.
    + injection Hrun as <- _. apply Forall_fmap, Forall_forall.
      intros raw Hraw. exists raw. auto.
    + apply IH in Hrun. eapply Forall_impl; [exact Hrun|].
      intros r (raw & -> & Hraw). exists raw. split; [reflexivity|].
      destruct Hraw as [Hin|(p & Hp & Hin)].
      * apply elem_of_app in Hin as [Hin|Hin]; [left; exact Hin|].
        right. exists page. rewrite Hs. split; [lia|exact Hin].
      * right. exists p. split; [lia|exact Hin].
Qed.

Lemma collect_all_products_records env fuel base_url budget w res w' :
  collect_all_products env fuel base_url budget w = Some (res, w') ->
  Forall (produced_by env base_url) res.
Proof.
  unfold collect_all_products, time_time. intros Hrun.
  apply collect_loop_records in Hrun. eapply Forall_impl; [exact Hrun|].
  intros r (raw & -> & [Hin|(p & Hp & Hin)]).
  - inversion Hin.
  - exists p, raw. auto.
Qed.

Lemma urls_in_order_records env fuel bn pb pt total i urls w rs w' :
  urls_in_order env fuel bn pb pt total i urls w rs w' ->
  Forall (fun r => exists base_url, base_url ∈ urls /\ produced_by env base_url r)
    (concat rs).
Proof.
  induction 1 as [i w|i base_url urls w products w1 rs w' Hc _ IH].
  - constructor.
  - cbn [concat]. apply Forall_app. split.
    + apply collect_all_products_records in Hc.
      eapply Forall_impl; [exact Hc|].
      intros r Hr. exists base_url. split; [left|exact Hr].
    + eapply Forall_impl; [exact IH|].
      intros r (u & Hu & Hr). exists u. split; [right; exact Hu|exact Hr].
Qed.

Lemma batches_in_order_records env fuel n batches w datas w' :
  batches_in_order env fuel n batches w datas w' ->
  Forall (fun r => exists base_url,
            base_url ∈ concat batches /\ produced_by env base_url r)
    (concat datas).
Proof.
  induction 1 as [n w|n batch batches w batch_data w1 datas w' Hp _ IH].
  - constructor.
  - cbn [concat]. apply Forall_app. split.
    + unfold process_batch in Hp.
      apply process_batch_loop_spec in Hp as (rs & Hrel & ->).
      rewrite app_nil_l. apply urls_in_order_records in Hrel.
      eapply Forall_impl; [exact Hrel|].
      intros r (u & Hu & Hr). exists u. split; [|exact Hr].
      apply elem_of_app. left. exact Hu.
    + eapply Forall_impl; [exact IH|].
      intros r (u & Hu & Hr). exists u. split; [|exact Hr].
      apply elem_of_app. right. exact Hu.
Qed.

(** C8. Every record of the aggregate result has its [source_url] field set
    to a base URL of the batches, the one whose pagination loop was served
    the product on one of its pages; a [source_url] the storefront sent is
    overwritten. *)
Theorem aggregate_source_url env fuel batches w all_results wf :
  collect_from_all_batches env fuel batches w = Some (all_results, wf) ->
  Forall (fun r : record =>
            exists base_url,
              base_url ∈ concat batches /\
              produced_by env base_url r /\
              r !! "source_url" = Some (VStr base_url))
    all_results.
Proof.
  unfold collect_from_all_batches.
  destruct (run_batches env fuel 1 batches [] w) as [[res w']|] eqn:Hrun;
    [|discriminate].
  intros [= <- _]. apply run_batches_spec in Hrun as (datas & Hrel & ->).
  rewrite app_nil_l. apply batches_in_order_records in Hrel.
  eapply Forall_impl; [exact Hrel|].
  intros r (u & Hu & Hr). exists u. split; [exact Hu|]. split; [exact Hr|].
  destruct Hr as (page & raw & _ & _ & ->). apply stamp_source_url.
Qed.

Lemma aggregate_source_url_witness :
  exists all_results wf,
    collect_from_all_batches shop_env 2 [["https://a.test"]; ["https://b.test"]] w0 =
      Some (all_results, wf) /\
    Forall (fun r : record =>
              exists base_url,
                base_url ∈ concat [["https://a.test"]; ["https://b.test"]] /\
                produced_by shop_env base_url r /\
                r !! "source_url" = Some (VStr base_url))
      all_results.
Proof.
  destruct (collect_from_all_batches shop_env 2
              [["https://a.test"]; ["https://b.test"]] w0)
    as [[all_results wf]|] eqn:Hrun.
  - exists all_results, wf. split; [reflexivity|].
    exact (aggregate_source_url shop_env 2 [["https://a.test"]; ["https://b.test"]]
             w0 all_results wf Hrun).
  - vm_compute in Hrun. discriminate.
Defined.

(** The example of the specification: two records, both of [https://a.test],
    the first of which came with a [source_url] of its own. *)
Example aggregate_shop :
  fst <$> collect_from_all_batches shop_env 2
            [["https://a.test"]; ["https://b.test"]] w0 =
  Some [ {[ "title" := VStr "tee"; "source_url" := VStr "https://a.test" ]};
         {[ "title" := VStr "mug"; "id" := VInt 7;
            "source_url" := VStr "https://a.test" ]} ].
Proof. vm_compute. reflexivity. Qed.

(** ** Failed requests *)

(** Two networks that serve the caller of [fetch_products] the same records
    under the same clock give runs that [agree]. *)
Section SameRecords.
Context (env env' : Env).
Hypothesis same_clock : forall n, clock env n = clock env' n.
Hypothesis same_served :
  forall base_url page, served env base_url page = served env' base_url page.

Lemma collect_loop_agree base_url budget start fuel :
  forall products page w w',
    reads w = reads w' ->
    agree (collect_loop env fuel base_url budget start products page w)
          (collect_loop env' fuel base_url budget start products page w').
Proof.
  induction fuel as [|fuel IH]; intros products page w w' Hr; [exact I|].
  cbn [collect_loop]. unfold time_time.
  rewrite <- same_clock, <- Hr.
  destruct (Qlt_le_dec budget (clock env (reads w) - start)).
  - cbn. rewrite Hr. auto.
  - rewrite !fetch_products_eq, <- same_served.
    destruct (served env base_url page).
    + cbn. rewrite Hr. auto.
    + apply IH. cbn. rewrite Hr. reflexivity.
Qed.

Lemma collect_all_products_agree fuel base_url budget w w' :
  reads w = reads w' ->
  agree (collect_all_products env fuel base_url budget w)
        (collect_all_products env' fuel base_url budget w').
Proof.
  intros Hr. unfold collect_all_products, time_time.
  rewrite <- same_clock, <- Hr. apply collect_loop_agree. cbn. reflexivity.
Qed.

Lemma process_batch_loop_agree fuel bn pb pt pb' pt' total urls :
  forall i data w w',
    reads w = reads w' ->
    agree (process_batch_loop env fuel bn pb pt total i urls data w)
          (process_batch_loop env' fuel bn pb' pt' total i urls data w').
Proof.
  induction urls as [|base_url urls IH]; intros i data w w' Hr.
  - cbn. auto.
  - cbn [process_batch_loop]. unfold time_time.
    pose proof (collect_all_products_agree fuel base_url 35
      (emit (StWrite (ProcessingUrl i total bn base_url))
         (mkWorld (S (reads w)) (trace w)))
      (emit (StWrite (ProcessingUrl i total bn base_url))
         (mkWorld (S (reads w')) (trace w')))) as Hc.
    destruct (collect_all_products env _ _ _ _) as [[products w1]|];
      destruct (collect_all_products env' _ _ _ _) as [[products' w1']|];
      cbn in Hc; try (exfalso; apply Hc; cbn; congruence); [|exact I].
    destruct Hc as [<- Hr1]; [cbn; congruence|].
    apply IH. cbn. congruence.
Qed.

Lemma run_batches_agree fuel batches :
  forall n all w w',
    reads w = reads w' ->
    agree (run_batches env fuel n batches all w)
          (run_batches env' fuel n batches all w').
Proof.
  induction batches as [|batch batches IH]; intros n all w w' Hr.
  - cbn. auto.
  - rewrite !run_batches_unfold. unfold process_batch.
    pose proof (process_batch_loop_agree fuel n (bar_of w) (text_of w)
      (bar_of w') (text_of w') (length batch) batch 1 []
      (batch_entered n w) (batch_entered n w')) as Hp.
    destruct (process_batch_loop env _ _ _ _ _ _ _ _ _) as [[d w1]|];
      destruct (process_batch_loop env' _ _ _ _ _ _ _ _ _) as [[d' w1']|];
      cbn in Hp; try (exfalso; apply Hp; exact Hr); [|exact I].
    destruct Hp as [<- Hr1]; [exact Hr|].
    apply IH. unfold batch_left, show_batch. destruct d; cbn; exact Hr1.
Qed.

Lemma collect_from_all_batches_agree fuel batches w :
  agree (collect_from_all_batches env fuel batches w)
        (collect_from_all_batches env' fuel batches w).
Proof.
  unfold collect_from_all_batches.
  pose proof (run_batches_agree fuel batches 1 [] w w eq_refl) as Hrun.
  destruct (run_batches env _ _ _ _ _) as [[res w1]|];
    destruct (run_batches env' _ _ _ _ _) as [[res' w1']|];
    cbn in Hrun |- *; try contradiction; [|exact I].
  destruct Hrun as [<- Hr]. split; [reflexivity|].
  unfold show_all. destruct res; cbn; exact Hr.
Qed.

End SameRecords.

Lemma served_answer_empty env url base_url page :
  http_get env url = Timeout \/ (exists e, http_get env url = Failure e) ->
  served env base_url page = served (answer_empty env url) base_url page.
Proof.
  intros Hfail. unfold served, answer_empty. cbn [http_get].
  destruct (decide (products_url base_url page = url)) as [->|_]; [|reflexivity].
  destruct Hfail as [->|[e ->]]; reflexivity.
Qed.

(** C4. On a timeout the page fetcher reports a warning and returns the
    empty list; on any other failure of the request it reports an error and
    returns the empty list. A collector that reaches the failed page within
    its budget stops there and returns the records of the pages before it.
    The collector, and the whole run, return the very records they return
    when the storefront answers that request with a page without products. *)
Theorem fetch_failure_is_empty_page env base_url page :
  let url := products_url base_url page in
  http_get env url = Timeout \/ (exists e, http_get env url = Failure e) ->
  (forall timeout w,
     http_get env url = Timeout ->
     fetch_products env base_url page timeout w =
       ([], emit (StWarning (PageTimedOut page base_url))
              (emit (HttpGet url timeout) w))) /\
  (forall timeout w e,
     http_get env url = Failure e ->
     fetch_products env base_url page timeout w =
       ([], emit (StError (RequestFailed base_url e))
              (emit (HttpGet url timeout) w))) /\
  (forall k budget fuel w,
     page = S k ->
     (forall p, 1 <= p <= k -> served env base_url p <> []) ->
     (forall j, 1 <= j <= S k -> (elapsed_at env w j <= budget)%Q) ->
     k < fuel ->
     fst <$> collect_all_products env fuel base_url budget w =
       Some (stamp base_url <$> concat (served env base_url <$> seq 1 k))) /\
  (forall fuel budget w,
     agree (collect_all_products env fuel base_url budget w)
           (collect_all_products (answer_empty env url) fuel base_url budget w)) /\
  (forall fuel batches w,
     agree (collect_from_all_batches env fuel batches w)
           (collect_from_all_batches (answer_empty env url) fuel batches w)).
Proof.
  intros url Hfail. split; [|split; [|split; [|split]]].
  - intros timeout w Ht. unfold fetch_products. fold url. rewrite Ht. reflexivity.
  - intros timeout w e He. unfold fetch_products. fold url. rewrite He. reflexivity.
  - intros k budget fuel w -> Hpages Hclock Hfuel.
    rewrite (collect_all_products_run env base_url budget k fuel w);
      [reflexivity|exact Hpages| |exact Hclock|exact Hfuel].
    unfold served. fold url. destruct Hfail as [->|[e ->]]; reflexivity.
  - intros fuel budget w. apply collect_all_products_agree; [reflexivity| |reflexivity].
    intros b p. apply served_answer_empty. exact Hfail.
  - intros fuel batches w. apply collect_from_all_batches_agree; [reflexivity|].
    intros b p. apply served_answer_empty. exact Hfail.
Qed.

Lemma fetch_failure_is_empty_page_witness :
  fetch_products shop_env "https://slow.test" 1 10 w0 =
    ([], mkWorld 0 [HttpGet "https://slow.test/products.json?page=1" 10;
                    StWarning (PageTimedOut 1 "https://slow.test")]) /\
  fst <$> collect_all_products shop_env 1 "https://slow.test" 35 w0 = Some [].
Proof.
  destruct (fetch_failure_is_empty_page shop_env "https://slow.test" 1)
    as (Hwarn & _ & Hstop & _ & _).
  - left. vm_compute. reflexivity.
  - split.
    + apply (Hwarn 10%Z w0). vm_compute. reflexivity.
    + apply (Hstop 0 35%Q 1 w0).
      * reflexivity.
      * intros p Hp. lia.
      * intros j Hj. assert (j = 1) as -> by lia. vm_compute. discriminate.
      * lia.
Defined.

Example fetch_products_down :
  fetch_products shop_env "https://down.test" 1 10 w0 =
    ([], mkWorld 0 [HttpGet "https://down.test/products.json?page=1" 10;
                    StError (RequestFailed "https://down.test" "503")]).
Proof. vm_compute. reflexivity. Qed.

(** A storefront that times out costs its own records only. *)
Example slow_storefront_run :
  fst <$> collect_from_all_batches shop_env 2
            [["https://slow.test"]; ["https://a.test"]; ["https://down.test"]] w0 =
  Some [stamp "https://a.test" tee; stamp "https://a.test" mug].
Proof. vm_compute. reflexivity. Qed.

(** * Further properties *)

(** ** The shape of every run of the collector *)

Lemma collect_loop_shape env base_url budget start fuel :
  forall products page w res w',
    collect_loop env fuel base_url budget start products page w = Some (res, w') ->
    exists n,
      n < fuel /\
      (forall p, page <= p < page + n -> served env base_url p <> []) /\
      (forall j, j < n -> (clock env (reads w + j) - start <= budget)%Q) /\
      (((budget < clock env (reads w + n) - start)%Q /\
        res = [] /\
        w' = mkWorld (reads w + S n)
               (trace w ++
                concat ((fun p => fetch_events env base_url p 10) <$> seq page n) ++
                [StWarning (TookTooLong base_url)])) \/
       ((clock env (reads w + n) - start <= budget)%Q /\
        served env base_url (page + n) = [] /\
        res = stamp base_url <$>
                (products ++ concat (served env base_url <$> seq page n)) /\
        w' = mkWorld (reads w + S n)
               (trace w ++
                concat ((fun p => fetch_events env base_url p 10) <$> seq page (S n))))).
Proof.
  induction fuel as [|fuel IH]; intros products page w res w' Hrun; [discriminate|].
  cbn [collect_loop] in Hrun. unfold time_time in Hrun.
  destruct (Qlt_le_dec budget (clock env (reads w) - start)) as [Hlt|Hle].
  - injection Hrun as <- <-. exists 0. split; [lia|].
    split; [intros p Hp; lia|]. split; [intros j Hj; lia|]. left.
    rewrite Nat.add_0_r. split; [exact Hlt|]. split; [reflexivity|].
    unfold emit. cbn. rewrite Nat.add_1_r. reflexivity.
  - rewrite fetch_products_eq in Hrun.
    destruct (served env base_url page) as [|x xs] eqn:Hs.
    + injection Hrun as <- <-. exists 0. split; [lia|].
      split; [intros p Hp; lia|]. split; [intros j Hj; lia|]. right.
      rewrite !Nat.add_0_r. split; [exact Hle|]. split; [exact Hs|].
      cbn. rewrite !app_nil_r, Nat.add_1_r. split; reflexivity.
    + apply IH in Hrun as (n & Hn & Hpages & Hclock & Hcase).
      cbn [reads trace] in Hclock, Hcase.
      exists (S n). split; [lia|]. split; [|split].
      * intros p Hp. destruct (decide (p = page)) as [->|Hne].
        -- rewrite Hs. discriminate.
        -- apply Hpages. lia.
      * intros j Hj. destruct j as [|j].
        -- rewrite Nat.add_0_r. exact Hle.
        -- replace (reads w + S j) with (S (reads w) + j) by lia.
           apply Hclock. lia.
      * replace (reads w + S n) with (S (reads w) + n) by lia.
        replace (page + S n) with (S page + n) by lia.
        replace (reads w + S (S n)) with (S (reads w) + S n) by lia.
        destruct Hcase as [(Hover & -> & ->)|(Hin & Hlast & -> & ->)].
        -- left. split; [exact Hover|]. split; [reflexivity|].
           cbn [seq fmap list_fmap concat]. rewrite <- !app_assoc. reflexivity.
        -- right. split; [exact Hin|]. split; [exact Hlast|].
           cbn [seq fmap list_fmap concat]. rewrite Hs, <- !app_assoc.
           split; reflexivity.
Qed.

Lemma collect_all_products_shape env fuel base_url budget w res w' :
  collect_all_products env fuel base_url budget w = Some (res, w') ->
  exists k,
    k < fuel /\
    (forall p, 1 <= p <= k -> served env base_url p <> []) /\
    (forall j, 1 <= j <= k -> (elapsed_at env w j <= budget)%Q) /\
    (((budget < elapsed_at env w (S k))%Q /\
      res = [] /\
      w' = mkWorld (reads w + S (S k))
             (trace w ++
              concat ((fun p => fetch_events env base_url p 10) <$> seq 1 k) ++
              [StWarning (TookTooLong base_url)])) \/
     ((elapsed_at env w (S k) <= budget)%Q /\
      served env base_url (S k) = [] /\
      res = stamp base_url <$> concat (served env base_url <$> seq 1 k) /\
      w' = mkWorld (reads w + S (S k))
             (trace w ++
              concat ((fun p => fetch_events env base_url p 10) <$> seq 1 (S k))))).
Proof.
  unfold collect_all_products, time_time. intros Hrun.
  apply collect_loop_shape in Hrun as (n & Hn & Hpages & Hclock & Hcase).
  cbn [reads trace] in Hclock, Hcase. unfold elapsed_at.
  exists n. split; [exact Hn|]. split; [|split].
  - intros p Hp. apply Hpages. lia.
  - intros j Hj. destruct j as [|j]; [lia|].
    replace (reads w + S j) with (S (reads w) + j) by lia. apply Hclock. lia.
  - replace (reads w + S n) with (S (reads w) + n) by lia.
    replace (reads w + S (S n)) with (S (reads w) + S n) by lia.
    exact Hcase.
Qed.

Lemma elem_of_concat {A : Type} (x : A) (ls : list (list A)) :
  x ∈ concat ls <-> exists l, x ∈ l /\ l ∈ ls.
Proof.
  rewrite list_elem_of_In, in_concat. split.
  - intros (l & Hl & Hx). exists l. rewrite !list_elem_of_In. auto.
  - intros (l & Hx & Hl). exists l. rewrite <- !list_elem_of_In. auto.
Qed.

(** X1. All or nothing: whenever the collector returns, it returns either
    nothing, its last act being the warning that the URL took too long, or
    every record of every page before the first page without products; it
    never returns a part of what it gathered. *)
Theorem collector_all_or_nothing env fuel base_url budget w res w' :
  collect_all_products env fuel base_url budget w = Some (res, w') ->
  exists k,
    (forall p, 1 <= p <= k -> served env base_url p <> []) /\
    (forall j, 1 <= j <= k -> (elapsed_at env w j <= budget)%Q) /\
    (((budget < elapsed_at env w (S k))%Q /\
      res = [] /\
      last (trace w') = Some (StWarning (TookTooLong base_url))) \/
     ((elapsed_at env w (S k) <= budget)%Q /\
      served env base_url (S k) = [] /\
      res = stamp base_url <$> concat (served env base_url <$> seq 1 k) /\
      StWarning (TookTooLong base_url) ∉ drop (length (trace w)) (trace w'))).
Proof.
  intros Hrun.
  apply collect_all_products_shape in Hrun as (k & _ & Hpages & Hclock & Hcase).
  exists k. split; [exact Hpages|]. split; [exact Hclock|].
  destruct Hcase as [(Hover & -> & ->)|(Hin & Hlast & -> & ->)].
  - left. split; [exact Hover|]. split; [reflexivity|].
    cbn [trace]. rewrite !app_assoc. apply last_snoc.
  - right. split; [exact Hin|]. split; [exact Hlast|]. split; [reflexivity|].
    cbn [trace]. rewrite drop_app_length.
    intros Hel. apply elem_of_concat in Hel as (t & Hel & Ht).
    apply list_elem_of_fmap in Ht as (p & -> & _).
    unfold fetch_events in Hel.
    destruct (http_get env (products_url base_url p));
      repeat (apply elem_of_cons in Hel as [Hel|Hel]; [discriminate|]);
      inversion Hel.
Qed.

Lemma collector_all_or_nothing_witness :
  exists res w' k,
    collect_all_products slow_env 2 "https://a.test" 35 w0 = Some (res, w') /\
    (((35 < elapsed_at slow_env w0 (S k))%Q /\
      res = [] /\
      last (trace w') = Some (StWarning (TookTooLong "https://a.test"))) \/
     ((elapsed_at slow_env w0 (S k) <= 35)%Q /\
      served slow_env "https://a.test" (S k) = [] /\
      res = stamp "https://a.test" <$>
              concat (served slow_env "https://a.test" <$> seq 1 k) /\
      StWarning (TookTooLong "https://a.test") ∉
        drop (length (trace w0)) (trace w'))).
Proof.
  destruct (collect_all_products slow_env 2 "https://a.test" 35 w0)
    as [[res w']|] eqn:Hrun.
  - destruct (collector_all_or_nothing slow_env 2 "https://a.test" 35 w0 res w' Hrun)
      as (k & _ & _ & Hcase).
    exists res, w', k. split; [reflexivity|exact Hcase].
  - vm_compute in Hrun. discriminate.
Defined.

(** ** The requests of the collector *)

Lemma products_url_inj base_url : Inj eq eq (products_url base_url).
Proof.
  intros p q Heq. unfold products_url in Heq.
  apply String.app_inj, String.app_inj in Heq.
  apply pretty_nat_inj in Heq. exact Heq.
Qed.

(** X2. Whenever the collector returns it has requested pages 1, 2, ..., n
    of its base URL for some n, one after the other and nothing else, every
    request with the timeout of 10; the URLs requested are pairwise
    different, so no page is fetched twice. *)
Theorem collector_requests_each_page_once env fuel base_url budget w res w' :
  collect_all_products env fuel base_url budget w = Some (res, w') ->
  exists n,
    requests (trace w') =
      requests (trace w) ++ (products_url base_url <$> seq 1 n) /\
    NoDup (products_url base_url <$> seq 1 n) /\
    Forall (fun e => forall url timeout, e = HttpGet url timeout -> timeout = 10%Z)
      (drop (length (trace w)) (trace w')).
Proof.
  intros Hrun.
  assert (forall page n,
            Forall (fun e => forall url timeout, e = HttpGet url timeout -> timeout = 10%Z)
              (concat ((fun p => fetch_events env base_url p 10) <$> seq page n)))
    as Hten.
  { intros page n. apply Forall_forall. intros e He.
    apply elem_of_concat in He as (t & He & Ht).
    apply list_elem_of_fmap in Ht as (p & -> & _).
    unfold fetch_events in He. intros url timeout ->.
    destruct (http_get env (products_url base_url p));
      repeat (apply elem_of_cons in He as [He|He]; [congruence|]);
      inversion He. }
  apply collect_all_products_shape in Hrun as (k & _ & _ & _ & Hcase).
  destruct Hcase as [(_ & _ & ->)|(_ & _ & _ & ->)]; cbn [trace].
  - exists k. split; [|split].
    + rewrite !requests_app, requests_fetch_events. cbn. rewrite app_nil_r.
      reflexivity.
    + apply NoDup_fmap_2; [apply products_url_inj|apply NoDup_seq].
    + rewrite drop_app_length. apply Forall_app. split; [apply Hten|].
      repeat constructor. intros url timeout [=].
  - exists (S k). split; [|split].
    + rewrite requests_app, requests_fetch_events. reflexivity.
    + apply NoDup_fmap_2; [apply products_url_inj|apply NoDup_seq].
    + rewrite drop_app_length. apply Hten.
Qed.

Lemma collector_requests_each_page_once_witness :
  exists res w' n,
    collect_all_products shop_env 2 "https://a.test" 35 w0 = Some (res, w') /\
    requests (trace w') =
      requests (trace w0) ++ (products_url "https://a.test" <$> seq 1 n) /\
    NoDup (products_url "https://a.test" <$> seq 1 n).
Proof.
  destruct (collect_all_products shop_env 2 "https://a.test" 35 w0)
    as [[res w']|] eqn:Hrun.
  - destruct (collector_requests_each_page_once
                shop_env 2 "https://a.test" 35 w0 res w' Hrun)
      as (n & Hreq & Hnd & _).
    exists res, w', n. split; [reflexivity|]. split; assumption.
  - vm_compute in Hrun. discriminate.
Defined.

(** ** When the collector returns *)










(** ** What stamping leaves alone *)

(** X5. The collector changes nothing of a product but [source_url]: every
    record it returns has, under every other key, what the product served on
    some page of the base URL has there, and no further key. *)
Theorem collector_keeps_other_fields env fuel base_url budget w res w' :
  collect_all_products env fuel base_url budget w = Some (res, w') ->
  Forall (fun r : record =>
            exists page raw,
              1 <= page /\
              raw ∈ served env base_url page /\
              (forall key, key <> "source_url" -> r !! key = raw !! key) /\
              dom r = {["source_url"]} ∪ dom raw)
    res.
Proof.
  intros Hrun. apply collect_all_products_records in Hrun.
  eapply Forall_impl; [exact Hrun|].
  intros r (page & raw & Hpage & Hraw & ->). exists page, raw.
  split; [exact Hpage|]. split; [exact Hraw|]. split.
  - intros key Hkey. unfold stamp. apply lookup_insert_ne. congruence.
  - unfold stamp. apply dom_insert_L.
Qed.

Lemma collector_keeps_other_fields_witness :
  exists res w',
    collect_all_products shop_env 2 "https://a.test" 35 w0 = Some (res, w') /\
    Forall (fun r : record =>
              exists page raw,
                1 <= page /\
                raw ∈ served shop_env "https://a.test" page /\
                (forall key, key <> "source_url" -> r !! key = raw !! key) /\
                dom r = {["source_url"]} ∪ dom raw)
      res.
Proof.
  destruct (collect_all_products shop_env 2 "https://a.test" 35 w0)
    as [[res w']|] eqn:Hrun.
  - exists res, w'. split; [reflexivity|].
    exact (collector_keeps_other_fields shop_env 2 "https://a.test" 35 w0 res w' Hrun).
  - vm_compute in Hrun. discriminate.
Defined.

(** ** More on the batch processor *)

(** X6. The progress of a batch is a proper fraction: every value set by
    the batch processor goes to the bar it was given and is [i / total] with
    [1 <= i <= total], where [total] is the length of the batch, so the
    division is never by zero and the value never leaves [0, 1]; the last
    value set is [total / total]. *)
Theorem process_batch_progress_in_range env fuel batch bn pb pt w data w' :
  process_batch env fuel batch bn pb pt w = Some (data, w') ->
  exists new,
    progress_of (trace w') = progress_of (trace w) ++ new /\
    length new = length batch /\
    Forall (fun '(bar, i, total) =>
              bar = pb /\ total = length batch /\ 1 <= i <= total) new /\
    (batch <> [] -> last new = Some (pb, length batch, length batch)).
Proof.
  unfold process_batch. intros Hrun.
  apply process_batch_loop_spec in Hrun as (rs & Hrel & _).
  apply urls_in_order_trace in Hrel as [Hprog _].
  exists ((fun k => (pb, k, length batch)) <$> seq 1 (length batch)).
  split; [exact Hprog|]. split; [rewrite length_fmap, length_seq; reflexivity|].
  split.
  - apply Forall_fmap, Forall_forall. intros i Hi.
    apply elem_of_seq in Hi. cbn. lia.
  - intros Hne. destruct (length batch) as [|m] eqn:Hlen.
    + destruct batch; [congruence|discriminate].
    + rewrite seq_S, fmap_app. cbn [fmap list_fmap]. rewrite last_snoc.
      reflexivity.
Qed.

Lemma process_batch_progress_in_range_witness :
  exists data w' new,
    process_batch shop_env 2 ["https://a.test"; "https://b.test"] 1 0 1 w0 =
      Some (data, w') /\
    progress_of (trace w') = progress_of (trace w0) ++ new /\
    last new = Some (0, 2, 2).
Proof.
  destruct (process_batch shop_env 2 ["https://a.test"; "https://b.test"] 1 0 1 w0)
    as [[data w']|] eqn:Hrun.
  - destruct (process_batch_progress_in_range shop_env 2
                ["https://a.test"; "https://b.test"] 1 0 1 w0 data w' Hrun)
      as (new & Hprog & _ & _ & Hlast).
    exists data, w', new. split; [reflexivity|]. split; [exact Hprog|].
    apply Hlast. discriminate.
  - vm_compute in Hrun. discriminate.
Defined.

Lemma collect_all_products_requests env fuel base_url budget w res w' :
  collect_all_products env fuel base_url budget w = Some (res, w') ->
  exists n,
    requests (trace w') = requests (trace w) ++ (products_url base_url <$> seq 1 n).
Proof.
  intros Hrun.
  apply collect_all_products_shape in Hrun as (k & _ & _ & _ & Hcase).
  destruct Hcase as [(_ & _ & ->)|(_ & _ & _ & ->)]; cbn [trace].
  - exists k. rewrite !requests_app, requests_fetch_events. cbn.
    rewrite app_nil_r. reflexivity.
  - exists (S k). rewrite requests_app, requests_fetch_events. reflexivity.
Qed.

Lemma urls_in_order_requests env fuel bn pb pt total i urls w rs w' :
  urls_in_order env fuel bn pb pt total i urls w rs w' ->
  exists ns,
    length ns = length urls /\
    requests (trace w') =
      requests (trace w) ++
      concat (zip_with (fun base_url n => products_url base_url <$> seq 1 n) urls ns).
Proof.
  induction 1 as [i w|i base_url urls w products w1 rs w' Hc _ (ns & Hlen & IH)].
  - exists []. cbn. rewrite app_nil_r. split; reflexivity.
  - apply collect_all_products_requests in Hc as (n & Hn).
    exists (n :: ns). split; [cbn; lia|].
    rewrite IH. unfold url_left, url_entered, time_time, emit in *.
    cbn [fst snd trace] in *.
    rewrite !requests_app, Hn, !requests_app. cbn.
    rewrite !app_nil_r, <- !app_assoc. reflexivity.
Qed.

(** X7. The requests of a batch are not interleaved: the batch processor
    requests pages 1, 2, ... of its first URL, then pages 1, 2, ... of its
    second URL, and so on in the order of the batch, and makes no other
    request. *)
Theorem process_batch_requests_url_by_url env fuel batch bn pb pt w data w' :
  process_batch env fuel batch bn pb pt w = Some (data, w') ->
  exists ns,
    length ns = length batch /\
    requests (trace w') =
      requests (trace w) ++
      concat (zip_with (fun base_url n => products_url base_url <$> seq 1 n) batch ns).
Proof.
  unfold process_batch. intros Hrun.
  apply process_batch_loop_spec in Hrun as (rs & Hrel & _).
  eapply urls_in_order_requests. exact Hrel.
Qed.

Lemma process_batch_requests_url_by_url_witness :
  exists data w' ns,
    process_batch shop_env 2 ["https://a.test"; "https://b.test"] 1 0 1 w0 =
      Some (data, w') /\
    length ns = 2 /\
    requests (trace w') =
      requests (trace w0) ++
      concat (zip_with (fun base_url n => products_url base_url <$> seq 1 n)
                ["https://a.test"; "https://b.test"] ns).
Proof.
  destruct (process_batch shop_env 2 ["https://a.test"; "https://b.test"] 1 0 1 w0)
    as [[data w']|] eqn:Hrun.
  - destruct (process_batch_requests_url_by_url shop_env 2
                ["https://a.test"; "https://b.test"] 1 0 1 w0 data w' Hrun)
      as (ns & Hlen & Hreq).
    exists data, w', ns. split; [reflexivity|]. split; assumption.
  - vm_compute in Hrun. discriminate.
Defined.

Example process_batch_shop_requests :
  requests <$> (trace <$> (snd <$>
    process_batch shop_env 2 ["https://a.test"; "https://b.test"] 1 0 1 w0)) =
  Some ["https://a.test/products.json?page=1";
        "https://a.test/products.json?page=2";
        "https://b.test/products.json?page=1"].
Proof. vm_compute. reflexivity. Qed.

(** ** Batches are a grouping only *)

Lemma agree_refl_reads env fuel base_url budget w w' :
  reads w = reads w' ->
  agree (collect_all_products env fuel base_url budget w)
        (collect_all_products env fuel base_url budget w').
Proof. intros Hr. apply collect_all_products_agree; auto. Qed.

(** What the batch processor returns does not depend on the number of the
    batch, the index it starts at, the total it shows or its widgets. *)
Lemma process_batch_loop_indep env fuel bn bn' pb pb' pt pt' total total' urls :
  forall i i' data w w',
    reads w = reads w' ->
    agree (process_batch_loop env fuel bn pb pt total i urls data w)
          (process_batch_loop env fuel bn' pb' pt' total' i' urls data w').
Proof.
  induction urls as [|base_url urls IH]; intros i i' data w w' Hr.
  - cbn. auto.
  - cbn [process_batch_loop]. unfold time_time.
    pose proof (agree_refl_reads env fuel base_url 35
      (emit (StWrite (ProcessingUrl i total bn base_url))
         (mkWorld (S (reads w)) (trace w)))
      (emit (StWrite (ProcessingUrl i' total' bn' base_url))
         (mkWorld (S (reads w')) (trace w')))) as Hc.
    destruct (collect_all_products env fuel base_url 35
                (emit (StWrite (ProcessingUrl i total bn base_url)) _))
      as [[products w1]|];
      destruct (collect_all_products env fuel base_url 35
                  (emit (StWrite (ProcessingUrl i' total' bn' base_url)) _))
        as [[products' w1']|];
      cbn in Hc; try (exfalso; apply Hc; cbn; congruence); [|exact I].
    destruct Hc as [<- Hr1]; [cbn; congruence|].
    apply IH. cbn. congruence.
Qed.

Lemma process_batch_loop_app env fuel bn pb pt total urls1 :
  forall urls2 i data w,
    process_batch_loop env fuel bn pb pt total i (urls1 ++ urls2) data w =
    match process_batch_loop env fuel bn pb pt total i urls1 data w with
    | None => None
    | Some (data1, w1) =>
        process_batch_loop env fuel bn pb pt total (i + length urls1) urls2 data1 w1
    end.
Proof.
  induction urls1 as [|base_url urls1 IH]; intros urls2 i data w.
  - cbn. rewrite Nat.add_0_r. reflexivity.
  - rewrite <- app_comm_cons.
    destruct (collect_all_products env fuel base_url 35
                (url_entered env i total bn base_url w))
      as [[products w1]|] eqn:Hc.
    + rewrite !(process_batch_loop_cons _ _ _ _ _ _ _ _ _ _ _ _ _ Hc), IH.
      cbn [length].
      replace (S i + length urls1) with (i + S (length urls1)) by lia.
      reflexivity.
    + rewrite !(process_batch_loop_fuel _ _ _ _ _ _ _ _ _ _ _ Hc). reflexivity.
Qed.

Lemma process_batch_loop_acc env fuel bn pb pt total i urls data w :
  process_batch_loop env fuel bn pb pt total i urls data w =
  match process_batch_loop env fuel bn pb pt total i urls [] w with
  | None => None
  | Some (data1, w1) => Some (data ++ data1, w1)
  end.
Proof.
  destruct (process_batch_loop env fuel bn pb pt total i urls [] w)
    as [[data1 w1]|] eqn:Hnil.
  - apply process_batch_loop_spec in Hnil as (rs & Hrel & ->).
    apply process_batch_loop_spec. exists rs. split; [exact Hrel|reflexivity].
  - destruct (process_batch_loop env fuel bn pb pt total i urls data w)
      as [[res w1]|] eqn:Hdata; [|reflexivity].
    apply process_batch_loop_spec in Hdata as (rs & Hrel & _).
    assert (process_batch_loop env fuel bn pb pt total i urls [] w =
            Some ([] ++ concat rs, w1)) as Hsome
      by (apply process_batch_loop_spec; eauto).
    congruence.
Qed.

Lemma run_batches_as_one_batch env fuel bn pb pt total batches :
  forall n i all w w',
    reads w = reads w' ->
    agree (run_batches env fuel n batches all w)
          (process_batch_loop env fuel bn pb pt total i (concat batches) all w').
Proof.
  induction batches as [|batch batches IH]; intros n i all w w' Hr.
  - cbn. auto.
  - rewrite run_batches_unfold. cbn [concat].
    rewrite process_batch_loop_app, (process_batch_loop_acc _ _ _ _ _ _ _ batch all).
    unfold process_batch.
    pose proof (process_batch_loop_indep env fuel n bn (bar_of w) pb (text_of w) pt
                  (length batch) total batch 1 i [] (batch_entered n w) w' Hr) as Hp.
    destruct (process_batch_loop env fuel n _ _ _ 1 batch [] _) as [[d w1]|];
      destruct (process_batch_loop env fuel bn pb pt total i batch [] w')
        as [[d' w1']|];
      cbn in Hp; try contradiction; [|exact I].
    destruct Hp as [<- Hr1]. apply IH.
    unfold batch_left, show_batch. destruct d; cbn; exact Hr1.
Qed.

(** X8. Batching changes nothing of what is collected: a run over the
    batches returns the records, and reads the clock as often, as the batch
    processor does on all their URLs taken as one batch; for the batches of
    the script that is the batch of the first [4 * (N / 4)] links. *)
Theorem batches_are_a_grouping env fuel bn pb pt :
  (forall batches w,
     agree (collect_from_all_batches env fuel batches w)
           (process_batch env fuel (concat batches) bn pb pt w)) /\
  (forall links w,
     agree (collect_from_all_batches env fuel (make_batches links) w)
           (process_batch env fuel
              (take (num_batches * (length links / num_batches)) links)
              bn pb pt w)).
Proof.
  assert (forall batches w,
            agree (collect_from_all_batches env fuel batches w)
                  (process_batch env fuel (concat batches) bn pb pt w)) as Hall.
  { intros batches w. unfold collect_from_all_batches, process_batch.
    pose proof (run_batches_as_one_batch env fuel bn pb pt
                  (length (concat batches)) batches 1 1 [] w w eq_refl) as Hrun.
    destruct (run_batches env fuel 1 batches [] w) as [[res w1]|];
      destruct (process_batch_loop env fuel bn pb pt _ 1 (concat batches) [] w)
        as [[res' w1']|];
      cbn in Hrun |- *; try contradiction; [|exact I].
    destruct Hrun as [<- Hr]. split; [reflexivity|].
    unfold show_all. destruct res; cbn; exact Hr. }
  split; [exact Hall|].
  intros links w. specialize (Hall (make_batches links) w).
  unfold make_batches in Hall at 2. rewrite concat_slices in Hall.
  unfold slice in Hall. rewrite drop_0, Nat.sub_0_r in Hall. exact Hall.
Qed.

Example batches_are_a_grouping_shop :
  fst <$> collect_from_all_batches shop_env 2
            [["https://b.test"; "https://a.test"]; []; ["https://slow.test"]] w0 =
  fst <$> process_batch shop_env 2
            ["https://b.test"; "https://a.test"; "https://slow.test"] 1 0 1 w0.
Proof. vm_compute. reflexivity. Qed.

(** ** The links left out *)

(** X9. Only the last [N mod 4] links, at most three, are left out of the
    batches: the batches, one after the other, followed by those links are
    the links of the upload, and when [N] is a multiple of 4 no link is
    left out. *)
Theorem make_batches_leaves_remainder (links : list string) :
  let rest := drop (num_batches * (length links / num_batches)) links in
  links = concat (make_batches links) ++ rest /\
  length rest = length links mod num_batches /\
  length rest < num_batches /\
  (length links mod num_batches = 0 -> concat (make_batches links) = links).
Proof.
  intros rest.
  assert (concat (make_batches links) =
          take (num_batches * (length links / num_batches)) links) as Hcat.
  { unfold make_batches. rewrite concat_slices. unfold slice.
    rewrite drop_0, Nat.sub_0_r. reflexivity. }
  assert (length rest = length links mod num_batches) as Hlen.
  { subst rest. rewrite length_drop.
    pose proof (Nat.div_mod_eq (length links) num_batches). lia. }
  split; [rewrite Hcat; subst rest; symmetry; apply take_drop|].
  split; [exact Hlen|]. split.
  - rewrite Hlen. apply Nat.mod_upper_bound. discriminate.
  - intros Hmod. rewrite Hcat. apply take_ge.
    pose proof (Nat.div_mod_eq (length links) num_batches). lia.
Qed.

Lemma make_batches_leaves_remainder_witness :
  concat (make_batches ["a"; "b"; "c"; "d"; "e"; "f"; "g"; "h"]) =
  ["a"; "b"; "c"; "d"; "e"; "f"; "g"; "h"].
Proof.
  apply (proj2 (proj2 (proj2 (make_batches_leaves_remainder
                                ["a"; "b"; "c"; "d"; "e"; "f"; "g"; "h"])))).
  reflexivity.
Defined.

(** ** The downloads of a run *)

Lemma batch_downloads_rows n datas :
  concat (snd <$> batch_downloads n datas) = concat datas.
Proof.
  revert n. induction datas as [|[|x xs] datas IH]; intros n; cbn.
  - reflexivity.
  - apply IH.
  - rewrite IH. reflexivity.
Qed.

Lemma batch_downloads_numbers n datas :
  Forall (fun d => n <= fst d < n + length datas /\ snd d <> []) (batch_downloads n datas).
Proof.
  revert n. induction datas as [|[|x xs] datas IH]; intros n; cbn [batch_downloads].
  - constructor.
  - eapply Forall_impl; [apply (IH (S n))|]. intros d [Hd Hne]. cbn [length]. split; [lia|exact Hne].
  - constructor; [cbn; split; [lia|discriminate]|].
    eapply Forall_impl; [apply (IH (S n))|]. intros d [Hd Hne]. cbn [length]. split; [lia|exact Hne].
Qed.

Lemma batch_downloads_NoDup n datas : NoDup (fst <$> batch_downloads n datas).
Proof.
  revert n. induction datas as [|[|x xs] datas IH]; intros n; cbn [batch_downloads].
  - constructor.
  - apply IH.
  - cbn [fmap list_fmap fst]. constructor; [|apply IH].
    intros Hin. apply list_elem_of_fmap in Hin as (d & Hd & Hin).
    pose proof (batch_downloads_numbers (S n) datas) as Hall.
    rewrite Forall_forall in Hall. apply Hall in Hin as [Hin _]. lia.
Qed.

Lemma batches_in_order_length env fuel n batches w datas w' :
  batches_in_order env fuel n batches w datas w' -> length datas = length batches.
Proof. induction 1; cbn; congruence. Qed.

Lemma collect_from_all_batches_exports env fuel batches w all_results wf :
  collect_from_all_batches env fuel batches w = Some (all_results, wf) ->
  exists datas,
    length datas = length batches /\
    all_results = concat datas /\
    batch_exports (trace wf) = batch_exports (trace w) ++ batch_downloads 1 datas /\
    tables (trace wf) = tables (trace w) ++ (snd <$> batch_downloads 1 datas).
Proof.
  unfold collect_from_all_batches.
  destruct (run_batches env fuel 1 batches [] w) as [[res w']|] eqn:Hrun;
    [|discriminate].
  intros [= <- <-]. apply run_batches_spec in Hrun as (datas & Hrel & ->).
  exists datas. split; [eapply batches_in_order_length; exact Hrel|].
  split; [reflexivity|].
  apply batches_in_order_exports in Hrel as (_ & Hb & Ht).
  unfold show_all, emit. destruct ([] ++ concat datas); cbn [trace].
  - split; assumption.
  - unfold batch_exports, tables in *. rewrite !omap_app, Hb, Ht. cbn.
    rewrite !app_nil_r. split; reflexivity.
Qed.

(** X10. The downloads of the batches and the combined download hold the
    same rows: the rows of the per-batch downloads of a run, one download
    after the other, are the aggregate result, and each table displayed
    holds the rows of the download that follows it. *)
Theorem batch_downloads_cover_all_results env fuel batches w all_results wf :
  collect_from_all_batches env fuel batches w = Some (all_results, wf) ->
  exists new,
    batch_exports (trace wf) = batch_exports (trace w) ++ new /\
    tables (trace wf) = tables (trace w) ++ (snd <$> new) /\
    concat (snd <$> new) = all_results.
Proof.
  intros Hrun.
  apply collect_from_all_batches_exports in Hrun as (datas & _ & -> & Hb & Ht).
  exists (batch_downloads 1 datas). split; [exact Hb|]. split; [exact Ht|].
  apply batch_downloads_rows.
Qed.

Lemma batch_downloads_cover_all_results_witness :
  exists all_results wf new,
    collect_from_all_batches shop_env 2
      [["https://b.test"]; ["https://a.test"]] w0 = Some (all_results, wf) /\
    batch_exports (trace wf) = batch_exports (trace w0) ++ new /\
    concat (snd <$> new) = all_results.
Proof.
  destruct (collect_from_all_batches shop_env 2
              [["https://b.test"]; ["https://a.test"]] w0)
    as [[all_results wf]|] eqn:Hrun.
  - destruct (batch_downloads_cover_all_results shop_env 2
                [["https://b.test"]; ["https://a.test"]] w0 all_results wf Hrun)
      as (new & Hb & _ & Hrows).
    exists all_results, wf, new. split; [reflexivity|]. split; assumption.
  - vm_compute in Hrun. discriminate.
Defined.

(** X11. No two batch downloads of a run share a file name and none is
    empty: the batch numbers of the downloads offered are pairwise
    different, each between 1 and the number of batches, and every download
    has at least one row. *)
Theorem batch_downloads_distinct env fuel batches w all_results wf :
  collect_from_all_batches env fuel batches w = Some (all_results, wf) ->
  exists new,
    batch_exports (trace wf) = batch_exports (trace w) ++ new /\
    NoDup (fst <$> new) /\
    Forall (fun d => 1 <= fst d <= length batches /\ snd d <> []) new.
Proof.
  intros Hrun.
  apply collect_from_all_batches_exports in Hrun as (datas & Hlen & _ & Hb & _).
  exists (batch_downloads 1 datas). split; [exact Hb|].
  split; [apply batch_downloads_NoDup|].
  eapply Forall_impl; [apply batch_downloads_numbers|].
  intros d [Hd Hne]. split; [lia|exact Hne].
Qed.

Lemma batch_downloads_distinct_witness :
  exists all_results wf new,
    collect_from_all_batches shop_env 2
      [["https://a.test"]; ["https://b.test"]; ["https://a.test"]] w0 =
      Some (all_results, wf) /\
    batch_exports (trace wf) = batch_exports (trace w0) ++ new /\
    NoDup (fst <$> new).
Proof.
  destruct (collect_from_all_batches shop_env 2
              [["https://a.test"]; ["https://b.test"]; ["https://a.test"]] w0)
    as [[all_results wf]|] eqn:Hrun.
  - destruct (batch_downloads_distinct shop_env 2
                [["https://a.test"]; ["https://b.test"]; ["https://a.test"]]
                w0 all_results wf Hrun)
      as (new & Hb & Hnd & _).
    exists all_results, wf, new. split; [reflexivity|]. split; assumption.
  - vm_compute in Hrun. discriminate.
Defined.

(** ** Before the button is pressed *)

(** X12. Nothing is fetched before the button is pressed on an upload:
    without an uploaded file, or with the button not pressed, the script
    returns for any fuel without a request, without reading the clock and
    without offering a download. *)
Theorem no_fetch_before_button env fuel
    (uploaded_file : option (gmap string (list string))) button w :
  uploaded_file = None \/ button = false ->
  exists wf,
    app env fuel uploaded_file button w = Some wf /\
    reads wf = reads w /\
    requests (trace wf) = requests (trace w) /\
    processed (trace wf) = processed (trace w) /\
    batch_exports (trace wf) = batch_exports (trace w) /\
    combined_exports (trace wf) = combined_exports (trace w).
Proof.
  intros Hidle. unfold app.
  assert (forall t,
            (t = [StTitle; StFileUploader] \/
             t = [StTitle; StFileUploader; StError MissingLinkColumn] \/
             t = [StTitle; StFileUploader; StButton]) ->
            requests (trace w ++ t) = requests (trace w) /\
            processed (trace w ++ t) = processed (trace w) /\
            batch_exports (trace w ++ t) = batch_exports (trace w) /\
            combined_exports (trace w ++ t) = combined_exports (trace w)) as Hquiet.
  { intros t Ht.
    unfold requests, processed, batch_exports, combined_exports.
    rewrite !omap_app.
    destruct Ht as [->|[->| ->]]; cbn; rewrite !app_nil_r; repeat split. }
  destruct uploaded_file as [csv_data|].
  - destruct (csv_data !! "link") as [links|].
    + destruct Hidle as [[=]| ->].
      eexists. split; [reflexivity|]. unfold emit. cbn [reads trace].
      split; [reflexivity|]. rewrite <- !app_assoc. apply Hquiet. auto.
    + eexists. split; [reflexivity|]. unfold emit. cbn [reads trace].
      split; [reflexivity|]. rewrite <- !app_assoc. apply Hquiet. auto.
  - eexists. split; [reflexivity|]. unfold emit. cbn [reads trace].
    split; [reflexivity|]. rewrite <- !app_assoc. apply Hquiet. auto.
Qed.

Lemma no_fetch_before_button_witness :
  exists wf,
    app shop_env 2 (Some four_links) false w0 = Some wf /\
    requests (trace wf) = requests (trace w0).
Proof.
  destruct (no_fetch_before_button shop_env 2 (Some four_links) false w0)
    as (wf & Happ & _ & Hreq & _).
  - right. reflexivity.
  - exists wf. split; assumption.
Defined.

(** ** When the script returns *)





